(** * The GameDistribution plugin for AdLad (src/mod.js)

    A shallow embedding of [gameDistributionPlugin] and of the part of the
    JavaScript run time it depends on: promise cells that settle once, async
    functions cut at their [await]s, and an event loop whose tasks are the
    calls of the host (AdLad), the events of the GameDistribution SDK, the
    settlement of the SDK's promises and the firing of timers.  After every
    task the microtask queue is drained, which resumes each suspended async
    function whose awaited promise has settled.

    What the plugin does to the outside world (calls on the host context, on
    [window.gdsdk], [setTimeout], [import], and the settlement of the promises
    it handed to the host) is recorded as a list of [Effect]s. *)

From Stdlib Require Import ZArith Bool.
From stdpp Require Import base option list strings.

Local Open Scope string_scope.
Local Open Scope list_scope.

(** ** JavaScript values and promises *)

Module Js.

(** Primitive values.  Numbers only occur as payloads that are compared
    with a non-numeric string, so an integer stands for them. *)
Inductive Primitive : Type :=
| Undefined
| Null
| Boolean (b : bool)
| Number (n : Z)
| Str (s : string).

(** A value is a primitive or an object.  Of an object only its identity
    and the outcome of [ToPrimitive] matter here: [Some p] when the
    conversion yields [p], [None] when it throws. *)
Inductive Value : Type :=
| Prim (p : Primitive)
| Object (id : nat) (toPrimitive : option Primitive).

(** [new Error(message)]: converting it to a primitive gives
    ["Error: " + message]. *)
Definition newError (message : string) : Value :=
  Object 0 (Some (Str ("Error: " +:+ message))).

(** The [TypeError] raised by the run time (calling [undefined], or an
    object that cannot be converted to a primitive). *)
Definition typeError (message : string) : Value :=
  Object 0 (Some (Str ("TypeError: " +:+ message))).

(** Result of running a synchronous piece of code. *)
Inductive Completion (A : Type) : Type :=
| Normal (a : A)
| Throw (e : Value).
Arguments Normal {A} a.
Arguments Throw {A} e.

(** A promise cell. *)
Inductive Promise (A : Type) : Type :=
| Pending
| Fulfilled (a : A)
| Rejected (e : Value).
Arguments Pending {A}.
Arguments Fulfilled {A} a.
Arguments Rejected {A} e.

Definition pending {A} (p : Promise A) : bool :=
  match p with Pending => true | _ => false end.

Definition settled {A} (p : Promise A) : bool := negb (pending p).

(** Resolving or rejecting a promise: only a pending promise takes the new
    state, a settled one ignores the call. *)
Definition settle {A} (p new : Promise A) : Promise A :=
  match p with Pending => new | _ => p end.

(** [Promise.race([p, q])] as seen once the microtasks have run: the state
    of the first settled promise of the array. *)
Definition race {A} (p q : Promise A) : Promise A :=
  match p with Pending => q | _ => p end.

(** [haystack.includes(needle)] on strings. *)
Fixpoint includes (needle haystack : string) : bool :=
  String.prefix needle haystack
  || match haystack with
     | EmptyString => false
     | String _ rest => includes needle rest
     end.

End Js.

Import Js.

(** ** The host (AdLad) and the SDK as the plugin sees them *)

(** [ShowFullScreenAdResult] of AdLad.  [errorReason] is a string or [null]. *)
Module AdLad.
Record ShowFullScreenAdResult : Type := {
  didShowAd : bool;
  errorReason : option string;
}.

(** The initialize context handed to the plugin; a number stands for the
    identity of the object, whose [setNeedsPause] and [setNeedsMute] are
    recorded as effects. *)
Definition AdLadPluginInitializeContext : Type := nat.
End AdLad.

Abbreviation Result := AdLad.ShowFullScreenAdResult.
Abbreviation Ctx := AdLad.AdLadPluginInitializeContext.

(** [GdAdTypeEnum] of the type declarations. *)
Inductive GdAdType : Type := Display | Interstitial | Rewarded.

Definition GdAdType_value (t : GdAdType) : string :=
  match t with
  | Display => "display"
  | Interstitial => "interstitial"
  | Rewarded => "rewarded"
  end.

(** [GdEvent]: an object with a [name]. The handler compares the name with
    string literals, so any string may occur, not only the five declared. *)
Record GdEvent : Type := { name : string }.

(** What [window.gdsdk.showAd(...)] does when called: throw, return a value
    that is not a promise, or return a promise that the SDK settles later (or
    never). *)
Inductive SdkCall : Type :=
| SdkThrows (e : Value)
| SdkReturnsValue
| SdkReturnsPromise.

(** What the plugin does to the outside world. *)
Inductive Effect : Type :=
| CtxSetNeedsPause (ctx : Ctx) (b : bool)
| CtxSetNeedsMute (ctx : Ctx) (b : bool)
| GdsdkShowAd (type : GdAdType) (containerId : option string)
| GdsdkOpenConsole
| ImportScript (url : string)
| SetTimeout (request : nat) (ms : Z)
| InitializeSettled (p : Promise unit)
| AdSettled (request : nat) (p : Promise Result)
| Threw (e : Value).

(** ** The plugin *)

(** [window.GD_OPTIONS]: the game id and the [onEvent] closure, of which the
    captured [ctx] is kept. *)
Record GdOptions : Type := {
  gameId : string;
  onEvent_ctx : Ctx;
}.

(** Where the one call of [initialize] that passed the guard is suspended. *)
Inductive InitializeFrame : Type :=
| NotCalled
| AwaitingImport
| AwaitingReady
| InitializeReturned
| InitializeThrew.

Inductive Operation : Type := ShowFullScreenAd | ShowRewardedAd.

Definition adTypeOf (op : Operation) : GdAdType :=
  match op with
  | ShowFullScreenAd => Interstitial
  | ShowRewardedAd => Rewarded
  end.

(** One call of [showFullScreenAd] or [showRewardedAd]: the promises created
    by [safeShowAd] and the promises of the three nested async functions. *)
Record AdRequest : Type := {
  operation : Operation;
  (** the operand of [await window.gdsdk.showAd(type)]: rejected when the call
      threw, fulfilled when it returned a value that is no promise *)
  sdkCall : Promise unit;
  showAdPromise : Promise (option Result);
  timerArmed : bool;
  timeoutPromise : Promise (option Result);
  raced : Promise (option Result);
  safeShowAdPromise : Promise (option Result);
  result : Promise Result;
}.

(** The page: [window.GD_OPTIONS], [localStorage.gd_debug_ex], the variables
    closed over by the plugin, and its suspended async functions. *)
Record World : Type := {
  GD_OPTIONS : option GdOptions;
  gd_debug_ex : bool;
  plugin_gameId : string;
  debug : bool;
  resolveInitialize : option (Promise unit);
  rewardReceived : bool;
  didShowAd : bool;
  pluginContext : option Ctx;
  initializeFrame : InitializeFrame;
  requests : list AdRequest;
}.

Definition set_GD_OPTIONS (v : option GdOptions) (w : World) : World :=
  {| GD_OPTIONS := v; gd_debug_ex := gd_debug_ex w;
     plugin_gameId := plugin_gameId w; debug := debug w;
     resolveInitialize := resolveInitialize w;
     rewardReceived := rewardReceived w; didShowAd := didShowAd w;
     pluginContext := pluginContext w;
     initializeFrame := initializeFrame w; requests := requests w |}.

Definition set_resolveInitialize (v : option (Promise unit)) (w : World) : World :=
  {| GD_OPTIONS := GD_OPTIONS w; gd_debug_ex := gd_debug_ex w;
     plugin_gameId := plugin_gameId w; debug := debug w;
     resolveInitialize := v;
     rewardReceived := rewardReceived w; didShowAd := didShowAd w;
     pluginContext := pluginContext w;
     initializeFrame := initializeFrame w; requests := requests w |}.

Definition set_rewardReceived (v : bool) (w : World) : World :=
  {| GD_OPTIONS := GD_OPTIONS w; gd_debug_ex := gd_debug_ex w;
     plugin_gameId := plugin_gameId w; debug := debug w;
     resolveInitialize := resolveInitialize w;
     rewardReceived := v; didShowAd := didShowAd w;
     pluginContext := pluginContext w;
     initializeFrame := initializeFrame w; requests := requests w |}.

Definition set_didShowAd (v : bool) (w : World) : World :=
  {| GD_OPTIONS := GD_OPTIONS w; gd_debug_ex := gd_debug_ex w;
     plugin_gameId := plugin_gameId w; debug := debug w;
     resolveInitialize := resolveInitialize w;
     rewardReceived := rewardReceived w; didShowAd := v;
     pluginContext := pluginContext w;
     initializeFrame := initializeFrame w; requests := requests w |}.

Definition set_pluginContext (v : option Ctx) (w : World) : World :=
  {| GD_OPTIONS := GD_OPTIONS w; gd_debug_ex := gd_debug_ex w;
     plugin_gameId := plugin_gameId w; debug := debug w;
     resolveInitialize := resolveInitialize w;
     rewardReceived := rewardReceived w; didShowAd := didShowAd w;
     pluginContext := v;
     initializeFrame := initializeFrame w; requests := requests w |}.

Definition set_initializeFrame (v : InitializeFrame) (w : World) : World :=
  {| GD_OPTIONS := GD_OPTIONS w; gd_debug_ex := gd_debug_ex w;
     plugin_gameId := plugin_gameId w; debug := debug w;
     resolveInitialize := resolveInitialize w;
     rewardReceived := rewardReceived w; didShowAd := didShowAd w;
     pluginContext := pluginContext w;
     initializeFrame := v; requests := requests w |}.

Definition set_requests (v : list AdRequest) (w : World) : World :=
  {| GD_OPTIONS := GD_OPTIONS w; gd_debug_ex := gd_debug_ex w;
     plugin_gameId := plugin_gameId w; debug := debug w;
     resolveInitialize := resolveInitialize w;
     rewardReceived := rewardReceived w; didShowAd := didShowAd w;
     pluginContext := pluginContext w;
     initializeFrame := initializeFrame w; requests := v |}.

(** [gameDistributionPlugin({gameId, debug})], lines 6-21: the closure
    variables start as [undefined], [false], [false] and [null]; an absent
    [debug] is taken from the host name. The page is given by the two values
    the plugin reads from it besides [GD_OPTIONS]. *)
Definition gameDistributionPlugin
    (gameId : string) (debug : option bool)
    (hostname : string) (page_GD_OPTIONS : option GdOptions)
    (page_gd_debug_ex : bool) : World :=
  {| GD_OPTIONS := page_GD_OPTIONS;
     gd_debug_ex := page_gd_debug_ex;
     plugin_gameId := gameId;
     debug := match debug with
              | None => includes "localhost" hostname
              | Some d => d
              end;
     resolveInitialize := None;
     rewardReceived := false;
     didShowAd := false;
     pluginContext := None;
     initializeFrame := NotCalled;
     requests := [] |}.

(** ** [safeShowAd] and the public ad operations *)

Definition tooSoon : string := "The advertisement was requested too soon.".

(** [p == tooSoon] for a primitive [p].  The numeric value of [tooSoon] is
    [NaN], so a number or a boolean never equals it, nor do [undefined] and
    [null]; a string equals it when it is the same string. *)
Definition primitiveEqualsTooSoon (p : Primitive) : bool :=
  match p with
  | Str s => String.eqb s tooSoon
  | _ => false
  end.

(** [e == tooSoon], the loose comparison of line 36.  An object is converted
    to a primitive first; [None] when that conversion throws. *)
Definition looselyEqualsTooSoon (e : Value) : option bool :=
  match e with
  | Prim p => Some (primitiveEqualsTooSoon p)
  | Object _ (Some p) => Some (primitiveEqualsTooSoon p)
  | Object _ None => None
  end.

Definition timeConstraint : Result :=
  {| AdLad.didShowAd := false; AdLad.errorReason := Some "time-constraint" |}.

Definition unknown : Result :=
  {| AdLad.didShowAd := false; AdLad.errorReason := Some "unknown" |}.

(** The inner [showAd], lines 32-48, as a function of what became of
    [await window.gdsdk.showAd(type)]. *)
Definition showAd (awaited : Promise unit) : Promise (option Result) :=
  match awaited with
  | Pending => Pending
  | Fulfilled _ => Fulfilled None
  | Rejected e =>
      match looselyEqualsTooSoon e with
      | Some true => Fulfilled (Some timeConstraint)
      | Some false => Rejected e
      | None => Rejected (typeError "Cannot convert object to primitive value")
      end
  end.

(** [safeShowAd] from line 73 on: what follows
    [await Promise.race([showAdPromise, timeoutPromise])]. *)
Definition safeShowAd_resume (pluginContext : option Ctx)
    (showAdResult : Promise (option Result))
    : Promise (option Result) * list Effect :=
  match showAdResult with
  | Pending => (Pending, [])
  | Fulfilled v =>
      (Fulfilled v,
       match pluginContext with
       | Some ctx => [CtxSetNeedsMute ctx false; CtxSetNeedsPause ctx false]
       | None => []
       end)
  | Rejected e => (Rejected e, [])
  end.

(** [showFullScreenAd] and [showRewardedAd] after [await safeShowAd(...)],
    lines 142-148 and 153-157. *)
Definition operation_resume (op : Operation) (w : World)
    (awaited : Promise (option Result)) : Promise Result :=
  match awaited with
  | Pending => Pending
  | Fulfilled (Some r) => Fulfilled r
  | Fulfilled None =>
      Fulfilled {| AdLad.didShowAd :=
                     match op with
                     | ShowFullScreenAd => didShowAd w
                     | ShowRewardedAd => rewardReceived w
                     end;
                   AdLad.errorReason := None |}
  | Rejected e => Rejected e
  end.

(** The microtasks of one ad request: each of the nested async functions is
    resumed if the promise it awaits has settled. *)
Definition resume (w : World) (id : nat) (req : AdRequest)
    : AdRequest * list Effect :=
  let showAdPromise' := settle (showAdPromise req) (showAd (sdkCall req)) in
  let raced' :=
    settle (raced req) (race showAdPromise' (timeoutPromise req)) in
  let safe :=
    if pending (safeShowAdPromise req)
    then safeShowAd_resume (pluginContext w) raced'
    else (safeShowAdPromise req, []) in
  let result' := settle (result req) (operation_resume (operation req) w safe.1) in
  ({| operation := operation req;
      sdkCall := sdkCall req;
      showAdPromise := showAdPromise';
      timerArmed := timerArmed req;
      timeoutPromise := timeoutPromise req;
      raced := raced';
      safeShowAdPromise := safe.1;
      result := result' |},
   safe.2 ++
   if pending (result req) && settled result' then [AdSettled id result'] else []).

(** The promises of a request when [safeShowAd] reaches its [await]: the SDK
    has been called and the timer is set, no async function has been resumed
    yet. *)
Definition newRequest (op : Operation) (sdk : SdkCall) : AdRequest :=
  {| operation := op;
     sdkCall := match sdk with
                | SdkThrows e => Rejected e
                | SdkReturnsValue => Fulfilled tt
                | SdkReturnsPromise => Pending
                end;
     showAdPromise := Pending;
     timerArmed := true;
     timeoutPromise := Pending;
     raced := Pending;
     safeShowAdPromise := Pending;
     result := Pending |}.

(** [safeShowAd(type)] up to its [await], lines 30-73, called by [op]. *)
Definition safeShowAd (op : Operation) (sdk : SdkCall) (w : World)
    : World * list Effect :=
  let w := set_didShowAd false w in
  let id := length (requests w) in
  (set_requests (requests w ++ [newRequest op sdk]) w,
   [GdsdkShowAd (adTypeOf op) None; SetTimeout id 5000]).

(** The callback given to [setTimeout], lines 59-70. *)
Definition timeout (w : World) (req : AdRequest) : AdRequest :=
  {| operation := operation req;
     sdkCall := sdkCall req;
     showAdPromise := showAdPromise req;
     timerArmed := false;
     timeoutPromise :=
       if didShowAd w then timeoutPromise req
       else settle (timeoutPromise req) (Fulfilled (Some unknown));
     raced := raced req;
     safeShowAdPromise := safeShowAdPromise req;
     result := result req |}.

(** The SDK settles the promise that [showAd] returned. *)
Definition sdkSettles (error : option Value) (req : AdRequest) : AdRequest :=
  {| operation := operation req;
     sdkCall := settle (sdkCall req)
                  match error with
                  | None => Fulfilled tt
                  | Some e => Rejected e
                  end;
     showAdPromise := showAdPromise req;
     timerArmed := timerArmed req;
     timeoutPromise := timeoutPromise req;
     raced := raced req;
     safeShowAdPromise := safeShowAdPromise req;
     result := result req |}.

Definition showFullScreenAd (sdk : SdkCall) (w : World) : World * list Effect :=
  safeShowAd ShowFullScreenAd sdk w.

Definition showRewardedAd (sdk : SdkCall) (w : World) : World * list Effect :=
  safeShowAd ShowRewardedAd sdk (set_rewardReceived false w).

(** [showBannerAd(options)], lines 159-163: not async, so what the SDK call
    throws is thrown to the caller; otherwise [undefined] is returned. *)
Definition showBannerAd (id : string) (sdk : SdkCall) (w : World)
    : World * list Effect * Completion Value :=
  (w, [GdsdkShowAd Display (Some id)],
   match sdk with
   | SdkThrows e => Throw e
   | _ => Normal (Prim Undefined)
   end).

(** ** [initialize] and the event handler *)

Definition sdkUrl : string := "https://html5.api.gamedistribution.com/main.min.js".

Definition duplicateInitialization : Value :=
  newError "GameDistribution plugin is being initialized more than once".

(** [initialize(ctx)] up to [await import(sdkUrl)], lines 93-120. *)
Definition initialize (ctx : Ctx) (w : World) : World * list Effect :=
  match GD_OPTIONS w with
  | Some _ => (w, [InitializeSettled (Rejected duplicateInitialization)])
  | None =>
      let w := set_pluginContext (Some ctx) w in
      let w := set_GD_OPTIONS
                 (Some {| gameId := plugin_gameId w; onEvent_ctx := ctx |}) w in
      (set_initializeFrame AwaitingImport w, [ImportScript sdkUrl])
  end.

(** [initialize] from the settlement of [import(sdkUrl)] to [await promise],
    lines 120-125. *)
Definition initialize_imported (error : option Value) (w : World)
    : World * list Effect :=
  match initializeFrame w with
  | AwaitingImport =>
      match error with
      | Some e => (set_initializeFrame InitializeThrew w,
                   [InitializeSettled (Rejected e)])
      | None => (set_initializeFrame AwaitingReady
                   (set_resolveInitialize (Some Pending) w), [])
      end
  | _ => (w, [])
  end.

(** [initialize] after [await promise], lines 127-137. *)
Definition initialize_resume (w : World) : World * list Effect :=
  match initializeFrame w, resolveInitialize w with
  | AwaitingReady, Some (Fulfilled _) =>
      (set_initializeFrame InitializeReturned w,
       (if debug w && negb (gd_debug_ex w) then [GdsdkOpenConsole] else [])
       ++ [InitializeSettled (Fulfilled tt)])
  | AwaitingReady, Some (Rejected e) =>
      (set_initializeFrame InitializeThrew w, [InitializeSettled (Rejected e)])
  | _, _ => (w, [])
  end.

(** [onEvent(event)], lines 102-116, with the [ctx] it closes over.  Calling
    [resolveInitialize] while it is still [undefined] is a [TypeError]. *)
Definition onEvent (ctx : Ctx) (event : GdEvent) (w : World)
    : Completion (World * list Effect) :=
  if String.eqb (name event) "SDK_READY" then
    match resolveInitialize w with
    | None => Throw (typeError "resolveInitialize is not a function")
    | Some p =>
        Normal (set_resolveInitialize (Some (settle p (Fulfilled tt))) w, [])
    end
  else if String.eqb (name event) "SDK_GAME_PAUSE" then
    Normal (w, [CtxSetNeedsPause ctx true; CtxSetNeedsMute ctx true])
  else if String.eqb (name event) "SDK_GAME_START" then
    Normal (w, [CtxSetNeedsMute ctx false; CtxSetNeedsPause ctx false])
  else if String.eqb (name event) "SDK_REWARDED_WATCH_COMPLETE" then
    Normal (set_rewardReceived true w, [])
  else if String.eqb (name event) "IMPRESSION" then
    Normal (set_didShowAd true w, [])
  else Normal (w, []).

(** ** The event loop *)

(** The tasks the plugin's code runs in: calls by the host, the settlement
    of [import(sdkUrl)], events of the SDK, the settlement of a promise that
    [window.gdsdk.showAd] returned, and timers.  For a call of an ad
    operation the task says what [window.gdsdk.showAd] does when called.

    Three things are taken from the surroundings of the plugin:
    [window.gdsdk] is there whenever the plugin uses it (the type
    declarations give it as a required property of [Window]); the methods of
    the host context return normally; and the SDK delivers its events in
    tasks of their own, not from inside [showAd].  An event that the SDK
    delivers right after settling a promise, before the microtasks run, is the
    same event delivered in the task before. *)
Inductive Task : Type :=
| CallInitialize (ctx : Ctx)
| ImportSettled (error : option Value)
| SdkEvent (event : GdEvent)
| CallShowFullScreenAd (sdk : SdkCall)
| CallShowRewardedAd (sdk : SdkCall)
| CallShowBannerAd (id : string) (sdk : SdkCall)
| SdkPromiseSettled (request : nat) (error : option Value)
| TimerFired (request : nat).

(** Applying [f] to request [id], if there is one. *)
Definition on_request (id : nat) (f : AdRequest -> AdRequest) (w : World) : World :=
  match requests w !! id with
  | Some req => set_requests (<[id := f req]> (requests w)) w
  | None => w
  end.

(** The plugin's own event handler, if it is the one that the SDK calls.  The
    SDK delivers its events to [window.GD_OPTIONS.onEvent].  The plugin
    assigns [window.GD_OPTIONS] in one place, line 100, in the same
    synchronous run in which it stores its context, line 98, and only when
    [window.GD_OPTIONS] was not set before, line 94: as long as the plugin
    has stored no context, a value of [window.GD_OPTIONS] is somebody else's,
    and so is its handler. *)
Definition pluginHandler (w : World) : option Ctx :=
  match pluginContext w, GD_OPTIONS w with
  | Some _, Some options => Some (onEvent_ctx options)
  | _, _ => None
  end.

Arguments pluginHandler : simpl never.

(** The synchronous part of a task.  An event reaches the plugin through its
    own handler only: delivered to the handler of somebody else, or to none,
    it leaves the plugin's variables as they are.  A timer fires once; a task
    for a request that does not exist does nothing. *)
Definition task (t : Task) (w : World) : World * list Effect :=
  match t with
  | CallInitialize ctx => initialize ctx w
  | ImportSettled error => initialize_imported error w
  | SdkEvent event =>
      match pluginHandler w with
      | Some ctx =>
          match onEvent ctx event w with
          | Normal r => r
          | Throw e => (w, [Threw e])
          end
      | None => (w, [])
      end
  | CallShowFullScreenAd sdk => showFullScreenAd sdk w
  | CallShowRewardedAd sdk => showRewardedAd sdk w
  | CallShowBannerAd id sdk =>
      let '(w', effects, completion) := showBannerAd id sdk w in
      (w', effects ++ match completion with Throw e => [Threw e] | Normal _ => [] end)
  | SdkPromiseSettled id error => (on_request id (sdkSettles error) w, [])
  | TimerFired id =>
      (on_request id (fun req => if timerArmed req then timeout w req else req) w, [])
  end.

(** Draining the microtask queue: [initialize] first, then the ad requests in
    the order they were made. *)
Definition microtasks (w : World) : World * list Effect :=
  let '(w, effects) := initialize_resume w in
  let resumed := imap (resume w) (requests w) in
  (set_requests (fst <$> resumed) w, effects ++ mjoin (snd <$> resumed)).

Definition step (w : World) (t : Task) : World * list Effect :=
  let '(w1, e1) := task t w in
  let '(w2, e2) := microtasks w1 in
  (w2, e1 ++ e2).

Fixpoint run (w : World) (ts : list Task) : World * list Effect :=
  match ts with
  | [] => (w, [])
  | t :: ts =>
      let '(w1, e1) := step w t in
      let '(w2, e2) := run w1 ts in
      (w2, e1 ++ e2)
  end.

(** ** The host's flags *)

(** The value last given to [ctx.setNeedsPause], [false] before any call. *)
Definition needsPause (ctx : Ctx) (effects : list Effect) : bool :=
  foldl (fun flag e =>
           match e with
           | CtxSetNeedsPause c b => if decide (c = ctx) then b else flag
           | _ => flag
           end) false effects.

Definition needsMute (ctx : Ctx) (effects : list Effect) : bool :=
  foldl (fun flag e =>
           match e with
           | CtxSetNeedsMute c b => if decide (c = ctx) then b else flag
           | _ => flag
           end) false effects.


(** ** Vocabulary of the statements *)

(** No async function of the request can be resumed: every promise that is
    awaited and has settled has been taken into account. *)
Definition quiet (req : AdRequest) : bool :=
  (settled (showAdPromise req) || pending (sdkCall req))
  && (settled (raced req)
      || (pending (showAdPromise req) && pending (timeoutPromise req)))
  && (settled (safeShowAdPromise req) || pending (raced req))
  && (settled (result req) || pending (safeShowAdPromise req)).

(** The request waits for the SDK and for its timer: none of its promises has
    settled. *)
Definition outstanding (req : AdRequest) : bool :=
  pending (sdkCall req) && pending (showAdPromise req)
  && pending (timeoutPromise req) && pending (raced req)
  && pending (safeShowAdPromise req) && pending (result req).

(** [initialize(ctx)] has passed its guard: the handler that closes over
    [ctx] is registered and [ctx] is the stored plugin context. *)
Definition registered (ctx : Ctx) (w : World) : Prop :=
  pluginContext w = Some ctx /\
  exists g, GD_OPTIONS w = Some {| gameId := g; onEvent_ctx := ctx |}.

Definition isEvent (n : string) (t : Task) : bool :=
  match t with
  | SdkEvent e => String.eqb (name e) n
  | _ => false
  end.

Definition settlesSdkPromise (id : nat) (t : Task) : bool :=
  match t with
  | SdkPromiseSettled r _ => Nat.eqb r id
  | _ => false
  end.

Definition firesTimer (id : nat) (t : Task) : bool :=
  match t with
  | TimerFired r => Nat.eqb r id
  | _ => false
  end.

Definition startsAd (t : Task) : bool :=
  match t with
  | CallShowFullScreenAd _ | CallShowRewardedAd _ => true
  | _ => false
  end.

Definition startsRewardedAd (t : Task) : bool :=
  match t with
  | CallShowRewardedAd _ => true
  | _ => false
  end.

(** The host calls [showFullScreenAd()] or [showRewardedAd()]. *)
Definition call (op : Operation) (sdk : SdkCall) : Task :=
  match op with
  | ShowFullScreenAd => CallShowFullScreenAd sdk
  | ShowRewardedAd => CallShowRewardedAd sdk
  end.

(** The flag that [op] derives [didShowAd] from when [safeShowAd] returns
    [null]. *)
Definition derivedFlag (op : Operation) (w : World) : bool :=
  match op with
  | ShowFullScreenAd => didShowAd w
  | ShowRewardedAd => rewardReceived w
  end.

Definition shown (b : bool) : Result :=
  {| AdLad.didShowAd := b; AdLad.errorReason := None |}.

(** How the promises of a request hang together: [showAdPromise] settles as
    [showAd] says, [timeoutPromise] is only ever fulfilled with [unknown],
    the race is won by one of the two, [safeShowAd] hands on what the race
    gave, and the operation hands on what [safeShowAd] gave. *)
Definition sane (req : AdRequest) : Prop :=
  (showAdPromise req = Pending \/ showAdPromise req = showAd (sdkCall req)) /\
  (timeoutPromise req = Pending \/
   timeoutPromise req = Fulfilled (Some unknown)) /\
  (raced req = Pending \/ raced req = showAdPromise req \/
   raced req = timeoutPromise req) /\
  (safeShowAdPromise req = Pending \/ safeShowAdPromise req = raced req) /\
  match safeShowAdPromise req with
  | Pending => result req = Pending
  | Fulfilled (Some r) => result req = Fulfilled r
  | Fulfilled None => exists b, result req = Fulfilled (shown b)
  | Rejected e => result req = Rejected e
  end.

(** Nothing is left for the microtasks to do. *)
Definition stable (w : World) : Prop :=
  initialize_resume w = (w, []) /\
  Forall (fun req => quiet req = true) (requests w).

(** After the step with outcome [out], the promise of request [id] is settled
    as [p], and the step told the host so. *)
Definition answers (out : World * list Effect) (id : nat) (p : Promise Result)
    : Prop :=
  (exists req, requests out.1 !! id = Some req /\ result req = p) /\
  AdSettled id p ∈ out.2.

(** How [resolveInitialize] and the handler follow the progress of
    [initialize]. *)
Definition handshake (w : World) : Prop :=
  match initializeFrame w with
  | NotCalled => resolveInitialize w = None /\ pluginContext w = None
  | AwaitingImport | InitializeThrew =>
      resolveInitialize w = None /\ is_Some (pluginHandler w)
  | AwaitingReady =>
      resolveInitialize w = Some Pending /\ is_Some (pluginHandler w)
  | InitializeReturned =>
      resolveInitialize w = Some (Fulfilled tt) /\ is_Some (pluginHandler w)
  end.

(** What the synchronous part of task [t] makes of request [id]. *)
Definition task_request (t : Task) (w : World) (id : nat) (req : AdRequest)
    : AdRequest :=
  match t with
  | SdkPromiseSettled r error =>
      if decide (id = r) then sdkSettles error req else req
  | TimerFired r =>
      if decide (id = r) then (if timerArmed req then timeout w req else req)
      else req
  | _ => req
  end.

(** How often the promise returned by [initialize] was fulfilled. *)
Definition resolutions (effects : list Effect) : nat :=
  length (List.filter
            (fun e => match e with
                      | InitializeSettled (Fulfilled _) => true
                      | _ => false
                      end) effects).

(** How often [initialize] can still fulfil the promise it returned. *)
Definition toResolve (w : World) : nat :=
  match initializeFrame w with
  | NotCalled | AwaitingImport | AwaitingReady => 1
  | InitializeReturned | InitializeThrew => 0
  end.

(** How often the host was told that request [id] has settled. *)
Definition answersCount (id : nat) (effects : list Effect) : nat :=
  length (List.filter
            (fun e => match e with
                      | AdSettled r _ => Nat.eqb r id
                      | _ => false
                      end) effects).

(** How often the host can still be told that request [id] has settled. *)
Definition toAnswer (w : World) (id : nat) : nat :=
  match requests w !! id with
  | Some req => if pending (result req) then 1 else 0
  | None => 1
  end.

(** How often [window.gdsdk.openConsole()] was called. *)
Definition consoleOpenings (effects : list Effect) : nat :=
  length (List.filter
            (fun e => match e with GdsdkOpenConsole => true | _ => false end)
            effects).

(** The calls of lines 80-81. *)
Definition resume_game (ctx : Ctx) : list Effect :=
  [CtxSetNeedsMute ctx false; CtxSetNeedsPause ctx false].

(** The event that sets the flag which [op] derives [didShowAd] from. *)
Definition flagEvent (op : Operation) : string :=
  match op with
  | ShowFullScreenAd => "IMPRESSION"
  | ShowRewardedAd => "SDK_REWARDED_WATCH_COMPLETE"
  end.

(** The request that task [t] settles a promise of, fires the timer of, or
    makes. *)
Definition target (t : Task) (w : World) : option nat :=
  match t with
  | SdkPromiseSettled r _ | TimerFired r => Some r
  | CallShowFullScreenAd _ | CallShowRewardedAd _ => Some (length (requests w))
  | _ => None
  end.

(** How often [window.gdsdk.showAd] was called, and how many timers were
    set. *)
Definition sdkCalls (effects : list Effect) : nat :=
  length (List.filter
            (fun e => match e with GdsdkShowAd _ _ => true | _ => false end)
            effects).

Definition timersSet (effects : list Effect) : nat :=
  length (List.filter
            (fun e => match e with SetTimeout _ _ => true | _ => false end)
            effects).

(** How often the host called one of the three ad operations. *)
Definition adCalls (ts : list Task) : nat :=
  length (List.filter
            (fun t => match t with
                      | CallShowFullScreenAd _ | CallShowRewardedAd _
                      | CallShowBannerAd _ _ => true
                      | _ => false
                      end) ts).

(** ** Example pages *)

(** The SDK delivers the event named [n]. *)
Definition deliver (n : string) : Task := SdkEvent {| name := n |}.

(** A page on example.com without [GD_OPTIONS], the plugin made with
    [debug: false]. *)
Definition examplePage : World :=
  gameDistributionPlugin "game" (Some false) "example.com" None false.

(** [initialize(7)] has been called, the script is loading. *)
Definition loadingPage : World := (step examplePage (CallInitialize 7)).1.

(** The script has loaded and SDK_READY has been delivered. *)
Definition readyPage : World :=
  (run loadingPage [ImportSettled None; deliver "SDK_READY"]).1.

(** [op] has been called and the SDK has returned a promise. *)
Definition showingPage (op : Operation) : World :=
  (step readyPage (call op SdkReturnsPromise)).1.

(** ** Promises and the microtasks of a request *)

Lemma settle_settled {A} (p q : Promise A) : settled p = true -> settle p q = p.
Proof. by destruct p. Qed.

Lemma pending_eq {A} (p : Promise A) : pending p = true <-> p = Pending.
Proof. destruct p; simpl; split; congruence. Qed.

(** A quiet request is left alone by the microtasks, whatever the flags. *)
Lemma resume_quiet w id req : quiet req = true -> resume w id req = (req, []).
Proof.
  destruct req as [op sdk sa ta tp ra sf re]. unfold quiet, resume. simpl.
  intros Hq.
  destruct sa, ra, sf, re; simpl in *; try discriminate; try reflexivity;
    destruct sdk, tp; simpl in *; try discriminate; reflexivity.
Qed.

(** After the microtasks a request is quiet. *)
Lemma quiet_resume w id req : quiet (resume w id req).1 = true.
Proof.
  destruct req as [op sdk sa ta tp ra sf re]. unfold quiet, resume. simpl.
  destruct sa, ra, sf, re; simpl; try reflexivity;
    destruct sdk, tp; simpl; try reflexivity;
    repeat match goal with
           | |- context [match ?x with _ => _ end] => destruct x; simpl
           end; reflexivity.
Qed.

Lemma outstanding_quiet req : outstanding req = true -> quiet req = true.
Proof.
  destruct req as [op sdk sa ta tp ra sf re]. unfold quiet, outstanding. simpl.
  destruct sdk, sa, tp, ra, sf, re; simpl; congruence.
Qed.

(** The microtasks of a request read three variables of the plugin only. *)
Lemma resume_ext w w' id req :
  pluginContext w = pluginContext w' ->
  didShowAd w = didShowAd w' ->
  rewardReceived w = rewardReceived w' ->
  resume w id req = resume w' id req.
Proof.
  intros H1 H2 H3. unfold resume, operation_resume. by rewrite H1, H2, H3.
Qed.

(** ** The event loop, one step at a time *)

Arguments resume : simpl never.
Arguments microtasks : simpl never.
Arguments step : simpl never.

Lemma initialize_resume_vars w :
  let w' := (initialize_resume w).1 in
  requests w' = requests w /\ pluginContext w' = pluginContext w /\
  didShowAd w' = didShowAd w /\ rewardReceived w' = rewardReceived w /\
  GD_OPTIONS w' = GD_OPTIONS w /\ resolveInitialize w' = resolveInitialize w.
Proof.
  destruct w as [? ? ? ? ri ? ? ? fr ?]. unfold initialize_resume. simpl.
  destruct fr; try (repeat split; reflexivity);
    destruct ri as [[]|]; repeat split; reflexivity.
Qed.

Lemma microtasks_eq w :
  microtasks w =
  (set_requests (imap (fun k req => (resume w k req).1) (requests w))
     (initialize_resume w).1,
   (initialize_resume w).2
   ++ mjoin (imap (fun k req => (resume w k req).2) (requests w))).
Proof.
  unfold microtasks.
  destruct (initialize_resume_vars w) as (Hr & Hc & Hd & Hw & _).
  destruct (initialize_resume w) as [w' e]. cbn [fst snd] in *.
  rewrite Hr, !fmap_imap. unfold compose.
  f_equal; [f_equal|f_equal; f_equal];
    apply imap_ext; intros k req _; by rewrite (resume_ext w' w).
Qed.

Lemma microtasks_vars w :
  let w' := (microtasks w).1 in
  pluginContext w' = pluginContext w /\ didShowAd w' = didShowAd w /\
  rewardReceived w' = rewardReceived w /\ GD_OPTIONS w' = GD_OPTIONS w /\
  resolveInitialize w' = resolveInitialize w.
Proof.
  rewrite microtasks_eq. simpl.
  destruct (initialize_resume_vars w) as (_ & ? & ? & ? & ? & ?). done.
Qed.

Lemma microtasks_lookup w k :
  requests (microtasks w).1 !! k
  = (fun req => (resume w k req).1) <$> requests w !! k.
Proof. rewrite microtasks_eq. simpl. by rewrite list_lookup_imap. Qed.

Lemma step_eq w t :
  step w t = ((microtasks (task t w).1).1,
              (task t w).2 ++ (microtasks (task t w).1).2).
Proof.
  unfold step. destruct (task t w) as [w1 e1]. simpl.
  by destruct (microtasks w1).
Qed.

Lemma step_lookup w t k :
  requests (step w t).1 !! k
  = (fun req => (resume (task t w).1 k req).1) <$> requests (task t w).1 !! k.
Proof. rewrite step_eq. simpl. apply microtasks_lookup. Qed.

Lemma on_request_lookup id f w k :
  requests (on_request id f w) !! k
  = if decide (k = id) then f <$> requests w !! k else requests w !! k.
Proof.
  unfold on_request. destruct (requests w !! id) as [req|] eqn:Hid; simpl.
  - case_decide as Hk.
    + subst k. rewrite list_lookup_insert_eq by by eapply lookup_lt_Some.
      by rewrite Hid.
    + by rewrite list_lookup_insert_ne.
  - case_decide as Hk; [subst k; by rewrite Hid | done].
Qed.

Lemma run_app w ts ts' :
  run w (ts ++ ts')
  = ((run (run w ts).1 ts').1, (run w ts).2 ++ (run (run w ts).1 ts').2).
Proof.
  revert w. induction ts as [|t ts IH]; intros w; cbn [run app].
  - cbn [fst snd]. by destruct (run w ts').
  - destruct (step w t) as [w1 e1]. rewrite IH.
    destruct (run w1 ts) as [w2 e2]. cbn [fst snd].
    destruct (run w2 ts') as [w3 e3]. cbn [fst snd]. by rewrite app_assoc.
Qed.

Lemma run_cons w t ts :
  run w (t :: ts)
  = ((run (step w t).1 ts).1, (step w t).2 ++ (run (step w t).1 ts).2).
Proof.
  cbn [run]. destruct (step w t) as [w1 e1]. cbn [fst snd].
  by destruct (run w1 ts).
Qed.

(** A property of the page kept by every step whose task passes [ok],
    together with a property of the effects of such steps, holds of a run of
    tasks that all pass [ok]. *)
Lemma run_invariant (P : World -> Prop) (Q : Effect -> Prop) (ok : Task -> bool) :
  (forall w t, P w -> ok t = true -> P (step w t).1 /\ Forall Q (step w t).2) ->
  forall ts w, P w -> forallb ok ts = true ->
               P (run w ts).1 /\ Forall Q (run w ts).2.
Proof.
  intros Hstep. induction ts as [|t ts IH]; intros w HP Hok; [by split|].
  simpl in Hok. apply andb_true_iff in Hok as [Ht Hts].
  rewrite run_cons. cbn [fst snd].
  destruct (Hstep w t HP Ht) as [HP1 HQ1].
  destruct (IH _ HP1 Hts) as [HP2 HQ2].
  split; [done|]. by apply Forall_app.
Qed.

(** *** What a task does to the plugin's variables and to a request *)

Lemma on_request_vars id f w :
  let w' := on_request id f w in
  pluginContext w' = pluginContext w /\ didShowAd w' = didShowAd w /\
  rewardReceived w' = rewardReceived w /\ GD_OPTIONS w' = GD_OPTIONS w /\
  resolveInitialize w' = resolveInitialize w /\
  initializeFrame w' = initializeFrame w.
Proof. unfold on_request. by destruct (requests w !! id). Qed.

Lemma registered_handler ctx w : registered ctx w -> pluginHandler w = Some ctx.
Proof. intros [Hc [g Hg]]. unfold pluginHandler. by rewrite Hc, Hg. Qed.

Lemma task_lookup t w id req :
  requests w !! id = Some req ->
  requests (task t w).1 !! id = Some (task_request t w id req).
Proof.
  intros Hreq. destruct t; simpl; try done.
  - unfold initialize. by destruct (GD_OPTIONS w).
  - unfold initialize_imported.
    by destruct (initializeFrame w), error.
  - destruct (pluginHandler w) as [c|]; [|done]. unfold onEvent.
    repeat case_match; simplify_eq; done.
  - by apply lookup_app_l_Some.
  - by apply lookup_app_l_Some.
  - rewrite on_request_lookup, Hreq. by case_decide.
  - rewrite on_request_lookup, Hreq. by case_decide.
Qed.

Lemma task_registered t w ctx : registered ctx w -> registered ctx (task t w).1.
Proof.
  intros Hreg. pose proof (registered_handler _ _ Hreg) as Hh.
  destruct Hreg as [Hc [g Hg]]. unfold registered.
  destruct t; simpl; try done.
  - unfold initialize. rewrite Hg. simpl. eauto.
  - unfold initialize_imported.
    destruct (initializeFrame w), error; simpl; eauto.
  - rewrite Hh. unfold onEvent. repeat case_match; simplify_eq; simpl; eauto.
  - eauto.
  - eauto.
  - eauto.
  - destruct (on_request_vars request (sdkSettles error) w) as (-> & _ & _ & -> & _).
    eauto.
  - match goal with |- context [on_request ?i ?f w] =>
      destruct (on_request_vars i f w) as (-> & _ & _ & -> & _) end.
    eauto.
Qed.

Lemma step_registered t w ctx : registered ctx w -> registered ctx (step w t).1.
Proof.
  intros H. apply (task_registered t) in H. rewrite step_eq. cbn [fst].
  destruct (microtasks_vars (task t w).1) as (Hc & _ & _ & Hg & _).
  unfold registered. by rewrite Hc, Hg.
Qed.

Lemma task_didShowAd_false t w :
  isEvent "IMPRESSION" t = false -> didShowAd w = false ->
  didShowAd (task t w).1 = false.
Proof.
  intros Ht Hd. destruct t; simpl in *; try done.
  - unfold initialize. by destruct (GD_OPTIONS w).
  - unfold initialize_imported. by destruct (initializeFrame w), error.
  - destruct (pluginHandler w) as [c|]; [|done]. unfold onEvent.
    rewrite Ht. repeat case_match; simplify_eq; done.
  - by destruct (on_request_vars request (sdkSettles error) w) as (_ & -> & _).
  - match goal with |- context [on_request ?i ?f w] =>
      by destruct (on_request_vars i f w) as (_ & -> & _) end.
Qed.

Lemma task_didShowAd_true t w :
  startsAd t = false -> didShowAd w = true -> didShowAd (task t w).1 = true.
Proof.
  intros Ht Hd. destruct t; simpl in *; try done.
  - unfold initialize. by destruct (GD_OPTIONS w).
  - unfold initialize_imported. by destruct (initializeFrame w), error.
  - destruct (pluginHandler w) as [c|]; [|done]. unfold onEvent.
    repeat case_match; simplify_eq; done.
  - by destruct (on_request_vars request (sdkSettles error) w) as (_ & -> & _).
  - match goal with |- context [on_request ?i ?f w] =>
      by destruct (on_request_vars i f w) as (_ & -> & _) end.
Qed.

Lemma task_rewardReceived_true t w :
  startsRewardedAd t = false -> rewardReceived w = true ->
  rewardReceived (task t w).1 = true.
Proof.
  intros Ht Hd. destruct t; simpl in *; try done.
  - unfold initialize. by destruct (GD_OPTIONS w).
  - unfold initialize_imported. by destruct (initializeFrame w), error.
  - destruct (pluginHandler w) as [c|]; [|done]. unfold onEvent.
    repeat case_match; simplify_eq; done.
  - by destruct (on_request_vars request (sdkSettles error) w) as (_ & _ & -> & _).
  - match goal with |- context [on_request ?i ?f w] =>
      by destruct (on_request_vars i f w) as (_ & _ & -> & _) end.
Qed.

(** The plugin's handler records the two events that the outcome of a
    request is derived from. *)
Lemma task_IMPRESSION ctx w :
  registered ctx w ->
  didShowAd (task (SdkEvent {| name := "IMPRESSION" |}) w).1 = true.
Proof. intros Hh%registered_handler. simpl. by rewrite Hh. Qed.

Lemma task_REWARDED ctx w :
  registered ctx w ->
  rewardReceived
    (task (SdkEvent {| name := "SDK_REWARDED_WATCH_COMPLETE" |}) w).1 = true.
Proof. intros Hh%registered_handler. simpl. by rewrite Hh. Qed.

(** *** Where the effects of a step come from *)

Lemma step_effects e w t :
  e ∈ (step w t).2 <->
  e ∈ (task t w).2 \/ e ∈ (initialize_resume (task t w).1).2 \/
  exists k req, requests (task t w).1 !! k = Some req /\
                e ∈ (resume (task t w).1 k req).2.
Proof.
  rewrite step_eq, microtasks_eq. cbn [fst snd].
  rewrite !elem_of_app, list_elem_of_join.
  split.
  - intros [H|[H|(l & Hl & Hin)]]; auto.
    apply elem_of_lookup_imap_1 in Hin as (k & req & -> & Hk). eauto 6.
  - intros [H|[H|(k & req & Hk & Hin)]]; auto.
    right; right. eexists. split; [exact Hin|].
    by apply (elem_of_lookup_imap_2 (fun k req => (resume (task t w).1 k req).2)).
Qed.

(** The microtasks of request [k] unpause and unmute the stored context and
    settle the promise of request [k], nothing else. *)
Lemma resume_effects w k req e :
  e ∈ (resume w k req).2 ->
  (exists ctx, pluginContext w = Some ctx /\
               (e = CtxSetNeedsMute ctx false \/ e = CtxSetNeedsPause ctx false))
  \/ (exists p, e = AdSettled k p /\ result req = Pending /\
                result (resume w k req).1 = p /\ settled p = true).
Proof.
  unfold resume. cbn [fst snd]. rewrite elem_of_app. intros [H|H].
  - left. destruct (pending (safeShowAdPromise req)); [|by apply elem_of_nil in H].
    unfold safeShowAd_resume in H.
    destruct (settle (raced req) _); cbn [snd] in H;
      try (by apply elem_of_nil in H).
    destruct (pluginContext w) as [ctx|]; [|by apply elem_of_nil in H].
    exists ctx. split; [done|].
    apply elem_of_cons in H as [->|H]; [by left|].
    apply list_elem_of_singleton in H as ->. by right.
  - right. destruct (pending (result req)) eqn:Hp; cbn [andb] in H;
      [|by apply elem_of_nil in H].
    match type of H with context [settled ?p] => destruct (settled p) eqn:Hs end;
      [|by apply elem_of_nil in H].
    apply list_elem_of_singleton in H as ->.
    eexists. split; [done|]. split; [by apply pending_eq|]. by split.
Qed.

Lemma initialize_resume_effects w e :
  e ∈ (initialize_resume w).2 ->
  e = GdsdkOpenConsole \/ exists p, e = InitializeSettled p.
Proof.
  unfold initialize_resume.
  destruct (initializeFrame w); try (by intros ?%elem_of_nil);
    destruct (resolveInitialize w) as [[]|]; try (by intros ?%elem_of_nil);
    cbn [snd].
  - rewrite elem_of_app, list_elem_of_singleton. intros [H| ->]; [|eauto].
    destruct (debug w && negb (gd_debug_ex w)); [|by apply elem_of_nil in H].
    apply list_elem_of_singleton in H. auto.
  - rewrite list_elem_of_singleton. intros ->. eauto.
Qed.

(** Only the event handler, on [SDK_GAME_PAUSE], pauses or mutes the game. *)
Lemma task_effects t w e :
  e ∈ (task t w).2 ->
  match e with
  | CtxSetNeedsPause _ true | CtxSetNeedsMute _ true =>
      isEvent "SDK_GAME_PAUSE" t = true
  | AdSettled _ _ => False
  | InitializeSettled (Fulfilled _) => False
  | _ => True
  end.
Proof.
  destruct t; simpl.
  - unfold initialize. destruct (GD_OPTIONS w); cbn [snd];
      intros ->%list_elem_of_singleton; done.
  - unfold initialize_imported.
    destruct (initializeFrame w); try (by intros ?%elem_of_nil).
    destruct error; cbn [snd]; [|by intros ?%elem_of_nil].
    intros ->%list_elem_of_singleton; done.
  - destruct (pluginHandler w) as [c|]; [|by intros ?%elem_of_nil].
    unfold onEvent.
    repeat match goal with
           | |- context [String.eqb (name event) ?s] =>
               destruct (String.eqb (name event) s)
           end;
      try destruct (resolveInitialize w); cbn [snd];
      rewrite ?elem_of_cons, ?elem_of_nil; intros H;
      repeat (destruct H as [->|H]; [done|]); done.
  - unfold showFullScreenAd, safeShowAd. cbn [snd].
    rewrite ?elem_of_cons, ?elem_of_nil. intros [->|[->|[]]]; done.
  - unfold showRewardedAd, safeShowAd. cbn [snd].
    rewrite ?elem_of_cons, ?elem_of_nil. intros [->|[->|[]]]; done.
  - rewrite ?elem_of_cons, ?elem_of_app. intros [->|H]; [done|].
    destruct sdk; rewrite ?elem_of_cons, elem_of_nil in H;
      try done. by destruct H as [->|[]].
  - by intros ?%elem_of_nil.
  - by intros ?%elem_of_nil.
Qed.

(** *** Requests that stay outstanding *)

Lemma task_request_outstanding t w id req :
  outstanding req = true ->
  settlesSdkPromise id t = false ->
  (firesTimer id t = true -> timerArmed req = true -> didShowAd w = true) ->
  outstanding (task_request t w id req) = true.
Proof.
  intros Ho Hs Hf. destruct t; simpl in *; try done.
  - case_decide; [subst|done]. by rewrite Nat.eqb_refl in Hs.
  - case_decide; [subst|done]. rewrite Nat.eqb_refl in Hf.
    destruct (timerArmed req); [|done].
    unfold timeout, outstanding in *. simpl. by rewrite Hf.
Qed.

Lemma task_request_disarmed t w id req :
  timerArmed req = false -> timerArmed (task_request t w id req) = false.
Proof.
  intros Ha. destruct t; simpl; try done; case_decide; try done.
  by rewrite Ha.
Qed.

(** A request that the task leaves outstanding is not touched by the
    microtasks, and the host hears nothing about it. *)
Lemma step_outstanding t w id req :
  requests w !! id = Some req ->
  outstanding (task_request t w id req) = true ->
  requests (step w t).1 !! id = Some (task_request t w id req) /\
  Forall (fun e => forall p, e <> AdSettled id p) (step w t).2.
Proof.
  intros Hreq Ho.
  pose proof (task_lookup t w id req Hreq) as Hl.
  pose proof (resume_quiet (task t w).1 id _ (outstanding_quiet _ Ho)) as Hq.
  split.
  - rewrite step_lookup, Hl. cbn [fmap option_fmap option_map]. by rewrite Hq.
  - apply Forall_forall. intros e He p ->.
    apply step_effects in He as [He|[He|(k & req' & Hk & He)]].
    + by apply task_effects in He.
    + apply initialize_resume_effects in He as [?|[? ?]]; done.
    + pose proof (resume_effects _ _ _ _ He) as [(ctx & _ & [?|?])|(p' & Hp & _)];
        try done.
      injection Hp as <- _. rewrite Hl in Hk. injection Hk as <-.
      rewrite Hq in He. by apply elem_of_nil in He.
Qed.

(** *** Following one request through a step *)

Lemma outstanding_inv req :
  outstanding req = true ->
  req = {| operation := operation req; sdkCall := Pending;
           showAdPromise := Pending; timerArmed := timerArmed req;
           timeoutPromise := Pending; raced := Pending;
           safeShowAdPromise := Pending; result := Pending |}.
Proof.
  destruct req as [op sdk sa ta tp ra sf re]. unfold outstanding. simpl.
  by destruct sdk, sa, tp, ra, sf, re.
Qed.

Lemma resume_step t w : resume (step w t).1 = resume (task t w).1.
Proof.
  rewrite step_eq. cbn [fst].
  destruct (microtasks_vars (task t w).1) as (Hc & Hd & Hr & _).
  unfold resume, operation_resume. by rewrite Hc, Hd, Hr.
Qed.

(** After a step, request [id] is what the microtasks made of what the task
    made of it, and the effects of those microtasks are effects of the
    step. *)
Lemma step_request t w id req :
  requests w !! id = Some req ->
  let w' := (step w t).1 in
  let resumed := resume w' id (task_request t w id req) in
  requests w' !! id = Some resumed.1 /\
  forall e, e ∈ resumed.2 -> e ∈ (step w t).2.
Proof.
  intros Hreq w' resumed. subst w' resumed. rewrite resume_step.
  pose proof (task_lookup t w id req Hreq) as Hl. split.
  - by rewrite step_lookup, Hl.
  - intros e He. apply step_effects. right; right. eauto.
Qed.

Lemma start_lookup op sdk w :
  requests (task (call op sdk) w).1 !! length (requests w)
  = Some (newRequest op sdk).
Proof.
  destruct op; simpl; rewrite lookup_app_r by done;
    by rewrite Nat.sub_diag.
Qed.

Lemma start_effects op sdk w :
  (task (call op sdk) w).2
  = [GdsdkShowAd (adTypeOf op) None; SetTimeout (length (requests w)) 5000].
Proof. by destruct op. Qed.

(** The step in which a request is made. *)
Lemma step_start op sdk w :
  let id := length (requests w) in
  let w' := (step w (call op sdk)).1 in
  let resumed := resume w' id (newRequest op sdk) in
  requests w' !! id = Some resumed.1 /\
  forall e, e ∈ resumed.2 -> e ∈ (step w (call op sdk)).2.
Proof.
  intros id w' resumed. subst id w' resumed. rewrite resume_step.
  pose proof (start_lookup op sdk w) as Hl. split.
  - by rewrite step_lookup, Hl.
  - intros e He. apply step_effects. right; right. eauto.
Qed.

Lemma step_didShowAd t w : didShowAd (step w t).1 = didShowAd (task t w).1.
Proof.
  rewrite step_eq. cbn [fst].
  by destruct (microtasks_vars (task t w).1) as (_ & -> & _).
Qed.

Lemma step_rewardReceived t w :
  rewardReceived (step w t).1 = rewardReceived (task t w).1.
Proof.
  rewrite step_eq. cbn [fst].
  by destruct (microtasks_vars (task t w).1) as (_ & _ & -> & _).
Qed.

Lemma step_GD_OPTIONS t w : GD_OPTIONS (step w t).1 = GD_OPTIONS (task t w).1.
Proof.
  rewrite step_eq. cbn [fst].
  by destruct (microtasks_vars (task t w).1) as (_ & _ & _ & -> & _).
Qed.

(** *** The host's flags *)

Lemma needsPause_snoc ctx l e :
  needsPause ctx (l ++ [e])
  = match e with
    | CtxSetNeedsPause c b => if decide (c = ctx) then b else needsPause ctx l
    | _ => needsPause ctx l
    end.
Proof. unfold needsPause. by rewrite foldl_app. Qed.

Lemma needsMute_snoc ctx l e :
  needsMute ctx (l ++ [e])
  = match e with
    | CtxSetNeedsMute c b => if decide (c = ctx) then b else needsMute ctx l
    | _ => needsMute ctx l
    end.
Proof. unfold needsMute. by rewrite foldl_app. Qed.

(** Effects that unpause [ctx] and never pause it leave it unpaused. *)
Lemma needsPause_reset ctx history effects :
  CtxSetNeedsPause ctx false ∈ effects ->
  CtxSetNeedsPause ctx true ∉ effects ->
  needsPause ctx (history ++ effects) = false.
Proof.
  induction effects as [|e effects IH] using rev_ind; [by intros ?%elem_of_nil|].
  rewrite !elem_of_app, !list_elem_of_singleton. intros Hin Hnot.
  rewrite app_assoc, needsPause_snoc.
  destruct e as [c b| | | | | | | |];
    try (apply IH; [by destruct Hin|tauto]).
  case_decide as Hc; [subst c|apply IH; [destruct Hin; congruence|tauto]].
  destruct b; [|done]. exfalso. apply Hnot. by right.
Qed.

Lemma needsMute_reset ctx history effects :
  CtxSetNeedsMute ctx false ∈ effects ->
  CtxSetNeedsMute ctx true ∉ effects ->
  needsMute ctx (history ++ effects) = false.
Proof.
  induction effects as [|e effects IH] using rev_ind; [by intros ?%elem_of_nil|].
  rewrite !elem_of_app, !list_elem_of_singleton. intros Hin Hnot.
  rewrite app_assoc, needsMute_snoc.
  destruct e as [|c b| | | | | | |];
    try (apply IH; [by destruct Hin|tauto]).
  case_decide as Hc; [subst c|apply IH; [destruct Hin; congruence|tauto]].
  destruct b; [|done]. exfalso. apply Hnot. by right.
Qed.

(** A step pauses or mutes the game only if its task is the delivery of
    SDK_GAME_PAUSE. *)
Lemma step_never_pauses t w ctx :
  isEvent "SDK_GAME_PAUSE" t = false ->
  (CtxSetNeedsPause ctx true ∉ (step w t).2) /\
  (CtxSetNeedsMute ctx true ∉ (step w t).2).
Proof.
  intros Ht. split; intros He;
    apply step_effects in He as [He|[He|(k & req' & Hk & He)]].
  - apply task_effects in He. congruence.
  - apply initialize_resume_effects in He as [?|[? ?]]; done.
  - apply resume_effects in He as [(c & _ & [?|?])|(p' & ? & _)]; done.
  - apply task_effects in He. congruence.
  - apply initialize_resume_effects in He as [?|[? ?]]; done.
  - apply resume_effects in He as [(c & _ & [?|?])|(p' & ? & _)]; done.
Qed.

(** *** Invariants of the pages that the plugin can reach *)

Lemma sane_newRequest op sdk : sane (newRequest op sdk).
Proof. unfold sane. simpl. auto 6. Qed.

Lemma sane_task_request t w id req : sane req -> sane (task_request t w id req).
Proof.
  intros Hs. destruct t; simpl; try done; case_decide; try done.
  - destruct req as [op sdk sa ta tp ra sf re]. unfold sane, sdkSettles in *.
    simpl in *. destruct sdk; simpl in *; try done.
    destruct Hs as ([Hs | ->] & ?); auto.
  - destruct (timerArmed req); [|done].
    destruct req as [op sdk sa ta tp ra sf re]. unfold sane, timeout in *.
    simpl in *. destruct (didShowAd w); [done|].
    destruct Hs as (H1 & [-> | ->] & H3 & H4 & H5); simpl; [|by auto].
    split; [done|]. split; [by auto|]. split; [|done].
    destruct H3 as [-> | [-> | ->]]; auto.
Qed.

Lemma safeShowAd_resume_fst ctx p : (safeShowAd_resume ctx p).1 = p.
Proof. by destruct p. Qed.

Lemma sane_resume w id req : sane req -> sane (resume w id req).1.
Proof.
  destruct req as [op sdk sa ta tp ra sf re]. unfold sane, resume.
  cbn [fst operation sdkCall showAdPromise timerArmed timeoutPromise raced
       safeShowAdPromise result].
  intros (H1 & H2 & H3 & H4 & H5).
  set (sa' := settle sa (showAd sdk)).
  set (ra' := settle ra (race sa' tp)).
  assert ((if pending sf then safeShowAd_resume (pluginContext w) ra'
           else (sf, [])).1 = if pending sf then ra' else sf) as ->.
  { destruct (pending sf); [apply safeShowAd_resume_fst|done]. }
  assert (sa' = Pending \/ sa' = showAd sdk) as HA.
  { subst sa'. destruct H1 as [-> | ->]; [by right|]. right.
    by destruct (showAd sdk). }
  assert (settled sa = true -> sa' = sa) as HsA by apply settle_settled.
  assert (ra' = Pending \/ ra' = sa' \/ ra' = tp) as HB.
  { subst ra'. destruct ra; simpl.
    - destruct sa'; simpl; auto.
    - destruct H3 as [? | [<- | <-]]; [done|rewrite HsA by done|]; auto.
    - destruct H3 as [? | [<- | <-]]; [done|rewrite HsA by done|]; auto. }
  assert (settled ra = true -> ra' = ra) as HsR by apply settle_settled.
  split; [done|]. split; [done|]. split; [done|].
  destruct sf as [|[r|]|e]; simpl.
  - split; [by right|]. rewrite H5. simpl.
    by destruct ra' as [|[r|]|e]; simpl; eauto.
  - destruct H4 as [? | <-]; [done|]. rewrite HsR by done.
    split; [by right|]. by rewrite H5.
  - destruct H4 as [? | <-]; [done|]. rewrite HsR by done.
    split; [by right|]. destruct H5 as [b ->]. eauto.
  - destruct H4 as [? | <-]; [done|]. rewrite HsR by done.
    split; [by right|]. by rewrite H5.
Qed.

Lemma task_length t w :
  length (requests (task t w).1)
  = length (requests w) + if startsAd t then 1 else 0.
Proof.
  destruct t; simpl; rewrite ?Nat.add_0_r; try done.
  - unfold initialize. by destruct (GD_OPTIONS w).
  - unfold initialize_imported. by destruct (initializeFrame w), error.
  - destruct (pluginHandler w) as [c|]; [|done]. unfold onEvent.
    repeat case_match; simplify_eq; done.
  - by rewrite length_app.
  - by rewrite length_app.
  - unfold on_request. destruct (requests w !! request); [|done].
    simpl. by rewrite length_insert.
  - unfold on_request. destruct (requests w !! request); [|done].
    simpl. by rewrite length_insert.
Qed.

(** A request found after the synchronous part of a task was there before,
    or has just been made. *)
Lemma task_lookup_inv t w k r0 :
  requests (task t w).1 !! k = Some r0 ->
  (exists req, requests w !! k = Some req /\ r0 = task_request t w k req) \/
  (k = length (requests w) /\
   exists op sdk, t = call op sdk /\ r0 = newRequest op sdk).
Proof.
  intros Hk. destruct (requests w !! k) as [req|] eqn:Hreq.
  - left. exists req. split; [done|].
    rewrite (task_lookup t w k req Hreq) in Hk. by injection Hk.
  - right. apply lookup_ge_None in Hreq.
    pose proof (lookup_lt_Some _ _ _ Hk) as Hlt. rewrite task_length in Hlt.
    destruct (startsAd t) eqn:Hst; [|lia].
    assert (k = length (requests w)) as -> by lia. split; [done|].
    destruct t; try discriminate.
    + exists ShowFullScreenAd, sdk. split; [done|].
      pose proof (start_lookup ShowFullScreenAd sdk w) as Hn.
      change (call ShowFullScreenAd sdk) with (CallShowFullScreenAd sdk) in Hn.
      congruence.
    + exists ShowRewardedAd, sdk. split; [done|].
      pose proof (start_lookup ShowRewardedAd sdk w) as Hn.
      change (call ShowRewardedAd sdk) with (CallShowRewardedAd sdk) in Hn.
      congruence.
Qed.

Lemma step_lookup_inv t w k r' :
  requests (step w t).1 !! k = Some r' ->
  exists r0, requests (task t w).1 !! k = Some r0 /\
             r' = (resume (step w t).1 k r0).1.
Proof.
  rewrite step_lookup, resume_step. intros Hk.
  apply fmap_Some in Hk as (r0 & Hr0 & ->). eauto.
Qed.

Lemma step_sane t w : Forall sane (requests w) -> Forall sane (requests (step w t).1).
Proof.
  rewrite !Forall_lookup. intros Hw k r' (r0 & Hr0 & ->)%step_lookup_inv.
  apply sane_resume.
  apply task_lookup_inv in Hr0 as [(req & Hreq & ->)|(_ & op & sdk & _ & ->)].
  - apply sane_task_request. by eapply Hw.
  - apply sane_newRequest.
Qed.

Lemma run_sane ts w : Forall sane (requests w) -> Forall sane (requests (run w ts).1).
Proof.
  revert w. induction ts as [|t ts IH]; intros w Hw; [done|].
  rewrite run_cons. cbn [fst]. by apply IH, step_sane.
Qed.

Lemma imap_resume_quiet w (l : list AdRequest) :
  Forall (fun req => quiet req = true) l ->
  forall n, imap (fun k req => (resume w (n + k) req).1) l = l /\
            mjoin (imap (fun k req => (resume w (n + k) req).2) l) = [].
Proof.
  induction 1 as [|req l Hq _ IH]; intros n; [done|].
  cbn [imap mjoin list_join]. rewrite (resume_quiet w _ req Hq). cbn [fst snd app].
  destruct (IH (S n)) as [IH1 IH2].
  assert (forall (A : Type) (f : nat -> AdRequest -> A),
            imap ((fun k req => f (n + k) req) ∘ S) l
            = imap (fun k req => f (S n + k) req) l) as Hshift.
  { intros A f. apply imap_ext. intros k x _. simpl. f_equal. lia. }
  rewrite (Hshift _ (fun k req => (resume w k req).1)).
  rewrite (Hshift _ (fun k req => (resume w k req).2)).
  split; [by rewrite IH1|exact IH2].
Qed.

Lemma stable_microtasks w : stable w -> microtasks w = (w, []).
Proof.
  intros [Hi Hq]. rewrite microtasks_eq, Hi. cbn [fst snd app].
  destruct (imap_resume_quiet w _ Hq 0) as [H1 H2]. cbn [Nat.add] in H1, H2.
  rewrite H1, H2. by destruct w.
Qed.

Lemma microtasks_stable w : stable (microtasks w).1.
Proof.
  split.
  - rewrite microtasks_eq. cbn [fst].
    destruct w as [? ? ? ? ri ? ? ? fr ?]. unfold initialize_resume. simpl.
    destruct fr; try done. by destruct ri as [[]|].
  - apply Forall_lookup. intros k r' Hk. rewrite microtasks_lookup in Hk.
    apply fmap_Some in Hk as (r0 & _ & ->). apply quiet_resume.
Qed.

Lemma step_stable t w : stable (step w t).1.
Proof. rewrite step_eq. apply microtasks_stable. Qed.

Lemma run_stable ts w : stable w -> stable (run w ts).1.
Proof.
  revert w. induction ts as [|t ts IH]; intros w Hw; [done|].
  rewrite run_cons. cbn [fst]. apply IH, step_stable.
Qed.

Lemma plugin_stable g d h o f : stable (gameDistributionPlugin g d h o f).
Proof. by split. Qed.

(** On a stable page a step is its task. *)
Lemma stable_step t w : stable (task t w).1 -> step w t = task t w.
Proof.
  intros Hs. rewrite step_eq, (stable_microtasks _ Hs). cbn [fst snd].
  rewrite app_nil_r. by destruct (task t w).
Qed.

Lemma showAd_Some awaited r :
  showAd awaited = Fulfilled (Some r) -> r = timeConstraint.
Proof.
  destruct awaited as [| |e]; simpl; try done.
  destruct (looselyEqualsTooSoon e) as [[]|]; congruence.
Qed.

Lemma task_request_waiting t w id req :
  safeShowAdPromise (task_request t w id req) = safeShowAdPromise req /\
  result (task_request t w id req) = result req /\
  operation (task_request t w id req) = operation req.
Proof.
  destruct t; simpl; try done; case_decide; try done.
  by destruct (timerArmed req).
Qed.


(** *** The handshake of [initialize] *)

Lemma resolutions_app l1 l2 :
  resolutions (l1 ++ l2) = resolutions l1 + resolutions l2.
Proof. unfold resolutions. by rewrite List.filter_app, length_app. Qed.

Lemma resolutions_none l :
  (forall e, e ∈ l -> forall u, e <> InitializeSettled (Fulfilled u)) ->
  resolutions l = 0.
Proof.
  unfold resolutions. induction l as [|e l IH]; intros Hl; [done|].
  simpl. destruct e as [| | | | | |[|u|]| |];
    try (apply IH; intros e' He'; apply Hl; by right).
  exfalso. eapply (Hl _ ltac:(by left)). reflexivity.
Qed.

(** The promise of [initialize] is fulfilled by the microtask of
    [initialize] and by nothing else. *)
Lemma step_resolutions w t :
  resolutions (step w t).2 = resolutions (initialize_resume (task t w).1).2.
Proof.
  rewrite step_eq, microtasks_eq. cbn [fst snd].
  rewrite !resolutions_app.
  rewrite (resolutions_none (task t w).2), (resolutions_none (mjoin _)); [lia| |].
  - intros e (l & Hl & Hin)%list_elem_of_join u ->.
    apply elem_of_lookup_imap_1 in Hin as (k & req & -> & Hk).
    apply resume_effects in Hl as [(c & _ & [?|?])|(p' & ? & _)]; done.
  - intros e He u ->. by apply task_effects in He.
Qed.

Lemma step_initialize_vars w t :
  let w1 := (initialize_resume (task t w).1).1 in
  initializeFrame (step w t).1 = initializeFrame w1 /\
  resolveInitialize (step w t).1 = resolveInitialize w1 /\
  pluginHandler (step w t).1 = pluginHandler w1 /\
  pluginContext (step w t).1 = pluginContext w1.
Proof. rewrite step_eq, microtasks_eq. done. Qed.

Lemma step_handshake w t :
  handshake w ->
  handshake (step w t).1 /\
  resolutions (step w t).2
  = match initializeFrame w with
    | AwaitingReady => if isEvent "SDK_READY" t then 1 else 0
    | _ => 0
    end /\
  resolutions (step w t).2 + toResolve (step w t).1 <= toResolve w /\
  (initializeFrame w = AwaitingReady ->
   initializeFrame (step w t).1
   = if isEvent "SDK_READY" t then InitializeReturned else AwaitingReady).
Proof.
  unfold handshake, toResolve. rewrite step_resolutions.
  destruct (step_initialize_vars w t) as (-> & -> & -> & ->).
  destruct w as [go ? ? ? ri ? ? pc fr rs]. unfold pluginHandler. simpl.
  intros H.
  assert (forall c : Ctx, is_Some (Some c)) as Hsome by (by eexists).
  destruct fr; simpl in H;
    [destruct H as [-> ->]; destruct go
    |destruct H as [-> Hh]; destruct pc as [c|], go as [o|];
     try (by destruct Hh)..];
    (destruct t as [ctx|[e|]|ev|sdk|sdk|id sdk|r e|r];
     unfold initialize_resume, task, pluginHandler, initialize,
       initialize_imported,
       showFullScreenAd, showRewardedAd, showBannerAd, safeShowAd, on_request,
       onEvent;
     simpl;
     repeat match goal with
            | |- context [String.eqb (name ev) ?s] =>
                destruct (String.eqb (name ev) s)
            end;
     try destruct (rs !! r); simpl; unfold resolutions;
     try destruct (debug0 && negb gd_debug_ex0); simpl;
     repeat split; try done; auto).
Qed.

Lemma plugin_handshake g d h o f : handshake (gameDistributionPlugin g d h o f).
Proof. done. Qed.

Lemma run_handshake ts w :
  handshake w ->
  handshake (run w ts).1 /\
  resolutions (run w ts).2 + toResolve (run w ts).1 <= toResolve w.
Proof.
  revert w. induction ts as [|t ts IH]; intros w Hw.
  - split; [done|]. simpl. unfold resolutions. simpl. lia.
  - rewrite run_cons. cbn [fst snd]. rewrite resolutions_app.
    destruct (step_handshake w t Hw) as (Hw1 & _ & Hle & _).
    destruct (IH _ Hw1) as [Hw2 Hle2]. split; [done|lia].
Qed.

Lemma run_without_ready ts w :
  handshake w ->
  forallb (fun t => negb (isEvent "SDK_READY" t)) ts = true ->
  resolutions (run w ts).2 = 0.
Proof.
  revert w. induction ts as [|t ts IH]; intros w Hw Hts; [done|].
  simpl in Hts. apply andb_true_iff in Hts as [Ht Hts].
  apply negb_true_iff in Ht.
  rewrite run_cons. cbn [fst snd]. rewrite resolutions_app.
  destruct (step_handshake w t Hw) as (Hw1 & -> & _). rewrite Ht.
  rewrite (IH _ Hw1 Hts). by destruct (initializeFrame w).
Qed.

Lemma run_awaiting_ready ts w :
  handshake w ->
  initializeFrame w = AwaitingReady ->
  resolutions (run w ts).2 = if existsb (isEvent "SDK_READY") ts then 1 else 0.
Proof.
  revert w. induction ts as [|t ts IH]; intros w Hw Hfr; [done|].
  rewrite run_cons. cbn [fst snd existsb]. rewrite resolutions_app.
  destruct (step_handshake w t Hw) as (Hw1 & -> & _ & Hfr1).
  specialize (Hfr1 Hfr). rewrite Hfr.
  destruct (isEvent "SDK_READY" t); cbn [orb].
  - destruct (run_handshake ts _ Hw1) as [_ Hle].
    unfold toResolve at 2 in Hle. rewrite Hfr1 in Hle. lia.
  - by rewrite (IH _ Hw1 Hfr1).
Qed.

(** *** [window.GD_OPTIONS] is set once *)

Lemma task_GD_OPTIONS t w :
  is_Some (GD_OPTIONS w) -> GD_OPTIONS (task t w).1 = GD_OPTIONS w.
Proof.
  intros [o Ho]. destruct t; simpl; try done.
  - unfold initialize. by rewrite Ho.
  - unfold initialize_imported. by destruct (initializeFrame w), error.
  - destruct (pluginHandler w) as [c|]; [|done]. unfold onEvent.
    repeat case_match; simplify_eq; done.
  - by destruct (on_request_vars request (sdkSettles error) w) as (_ & _ & _ & -> & _).
  - match goal with |- context [on_request ?i ?f w] =>
      by destruct (on_request_vars i f w) as (_ & _ & _ & -> & _) end.
Qed.

Lemma run_GD_OPTIONS ts w :
  is_Some (GD_OPTIONS w) -> GD_OPTIONS (run w ts).1 = GD_OPTIONS w.
Proof.
  revert w. induction ts as [|t ts IH]; intros w Hw; [done|].
  rewrite run_cons. cbn [fst].
  assert (GD_OPTIONS (step w t).1 = GD_OPTIONS w) as Hs
      by (by rewrite step_GD_OPTIONS, task_GD_OPTIONS).
  rewrite IH; rewrite Hs; done.
Qed.

Lemma initialize_sets_GD_OPTIONS ctx w :
  is_Some (GD_OPTIONS (step w (CallInitialize ctx)).1).
Proof.
  rewrite step_GD_OPTIONS. simpl. unfold initialize.
  destruct (GD_OPTIONS w) eqn:Ho; simpl; [by rewrite Ho|done].
Qed.

Lemma initialize_registers ctx w :
  GD_OPTIONS w = None -> registered ctx (step w (CallInitialize ctx)).1.
Proof.
  intros Ho. unfold registered. rewrite step_GD_OPTIONS.
  rewrite step_eq. cbn [fst].
  destruct (microtasks_vars (task (CallInitialize ctx) w).1) as (-> & _).
  simpl. unfold initialize. rewrite Ho. simpl. eauto.
Qed.

Lemma run_registered ts w ctx : registered ctx w -> registered ctx (run w ts).1.
Proof.
  revert w. induction ts as [|t ts IH]; intros w Hw; [done|].
  rewrite run_cons. cbn [fst]. by apply IH, step_registered.
Qed.

(** *** The event handler *)

(** An event with a name that the handler does not know is ignored. *)
Lemma onEvent_unknown ctx ev w :
  name ev ∉ ["SDK_READY"; "SDK_GAME_PAUSE"; "SDK_GAME_START";
             "SDK_REWARDED_WATCH_COMPLETE"; "IMPRESSION"] ->
  onEvent ctx ev w = Normal (w, []).
Proof.
  intros Hn. unfold onEvent.
  repeat match goal with
         | |- context [String.eqb (name ev) ?s] =>
             destruct (String.eqb_spec (name ev) s) as [Heq|_];
             [exfalso; apply Hn; rewrite Heq, !elem_of_cons; auto 10|]
         end.
  done.
Qed.

(** The handler throws in one case only: SDK_READY while
    [resolveInitialize] is [undefined]. *)
Lemma onEvent_throws ctx ev w e :
  onEvent ctx ev w = Throw e <->
  name ev = "SDK_READY" /\ resolveInitialize w = None /\
  e = typeError "resolveInitialize is not a function".
Proof.
  unfold onEvent. destruct (String.eqb_spec (name ev) "SDK_READY") as [Heq|Hne].
  - destruct (resolveInitialize w); split; try done; [by intros (_ & ? & _)| |].
    + intros [= <-]. done.
    + by intros (_ & _ & ->).
  - split; [|by intros [? _]]. repeat case_match; done.
Qed.

(** *** The flag that an outcome is read from *)

Lemma task_rewardReceived_false t w :
  isEvent "SDK_REWARDED_WATCH_COMPLETE" t = false ->
  rewardReceived w = false -> rewardReceived (task t w).1 = false.
Proof.
  intros Ht Hd. destruct t; simpl in *; try done.
  - unfold initialize. by destruct (GD_OPTIONS w).
  - unfold initialize_imported. by destruct (initializeFrame w), error.
  - destruct (pluginHandler w) as [c|]; [|done]. unfold onEvent.
    rewrite Ht. repeat case_match; simplify_eq; done.
  - by destruct (on_request_vars request (sdkSettles error) w) as (_ & _ & -> & _).
  - match goal with |- context [on_request ?i ?f w] =>
      by destruct (on_request_vars i f w) as (_ & _ & -> & _) end.
Qed.

Lemma step_derivedFlag_false op t w :
  isEvent (flagEvent op) t = false ->
  derivedFlag op w = false -> derivedFlag op (step w t).1 = false.
Proof.
  destruct op; simpl; intros Ht Hf.
  - rewrite step_didShowAd. by apply task_didShowAd_false.
  - rewrite step_rewardReceived. by apply task_rewardReceived_false.
Qed.

Lemma step_derivedFlag_task op t w :
  derivedFlag op (step w t).1 = derivedFlag op (task t w).1.
Proof. destruct op; simpl; [apply step_didShowAd|apply step_rewardReceived]. Qed.

(** When the SDK fulfils the promise of an outstanding request, the request
    is fulfilled with the flag of its operation as it is then. *)
Lemma fulfilment_answers w id req :
  requests w !! id = Some req ->
  outstanding req = true ->
  answers (step w (SdkPromiseSettled id None)) id
    (Fulfilled (shown (derivedFlag (operation req) w))).
Proof.
  intros Hreq Ho.
  destruct (step_request (SdkPromiseSettled id None) w id req Hreq) as [Hl He].
  assert (derivedFlag (operation req) (step w (SdkPromiseSettled id None)).1
          = derivedFlag (operation req) w) as Hflag.
  { rewrite step_derivedFlag_task. simpl.
    destruct (on_request_vars id (sdkSettles None) w) as (_ & Hd & Hr & _).
    destruct (operation req); simpl; congruence. }
  revert Hl He. simpl. rewrite decide_True by done.
  rewrite (outstanding_inv req Ho).
  unfold sdkSettles, resume, operation_resume. simpl.
  change (Fulfilled {| AdLad.didShowAd := ?b; AdLad.errorReason := None |})
    with (Fulfilled (shown b)).
  fold (derivedFlag (operation req) (step w (SdkPromiseSettled id None)).1).
  rewrite Hflag. intros Hl He. split; [eauto|].
  apply He. apply elem_of_app. right. by apply list_elem_of_singleton.
Qed.

(** ** The claims *)

(** C1, where the code departs from it. [initialize(7)] has returned,
    [showFullScreenAd()] is called, the SDK delivers SDK_GAME_PAUSE and then
    rejects its promise with an error that is not the "requested too soon"
    string. The request is rejected with that error, and the only calls made
    on the host context are those of the event handler: the game is left
    paused and muted. *)
Theorem rejection_skips_the_reset :
  let out :=
    run readyPage
      [CallShowFullScreenAd SdkReturnsPromise; deliver "SDK_GAME_PAUSE";
       SdkPromiseSettled 0 (Some (newError "no ad"))] in
  pluginContext out.1 = Some 7 /\
  out.2 = [GdsdkShowAd Interstitial None; SetTimeout 0 5000;
           CtxSetNeedsPause 7 true; CtxSetNeedsMute 7 true;
           AdSettled 0 (Rejected (newError "no ad"))] /\
  needsPause 7 out.2 = true /\
  needsMute 7 out.2 = true.
Proof. vm_compute. repeat split. Qed.

(** The same request when the SDK fulfils its promise: the game is unmuted
    and unpaused before the host is answered. *)
Lemma fulfilment_resets :
  (run readyPage
     [CallShowFullScreenAd SdkReturnsPromise; deliver "SDK_GAME_PAUSE";
      SdkPromiseSettled 0 None]).2
  = [GdsdkShowAd Interstitial None; SetTimeout 0 5000;
     CtxSetNeedsPause 7 true; CtxSetNeedsMute 7 true;
     CtxSetNeedsMute 7 false; CtxSetNeedsPause 7 false;
     AdSettled 0 (Fulfilled (shown false))].
Proof. vm_compute. reflexivity. Qed.

(** C2. Let [initialize(ctx)] have passed its guard. A call of
    [showRewardedAd()] for which the SDK returns a promise sets a timer of
    5000 ms. If, until that timer fires, the SDK does not settle its promise
    and no IMPRESSION event is delivered (any other task may run, the
    delivery of SDK_GAME_PAUSE included), then the host hears nothing about
    the request before the timer fires, and in the step in which it fires the
    request is fulfilled with [{didShowAd: false, errorReason: "unknown"}]
    and the game is left neither paused nor muted. *)
Theorem rewarded_timeout_resolves_unknown w ctx history mid :
  registered ctx w ->
  let id := length (requests w) in
  forallb (fun t => negb (isEvent "IMPRESSION" t)
                    && negb (settlesSdkPromise id t)
                    && negb (firesTimer id t)) mid = true ->
  let before := run w (CallShowRewardedAd SdkReturnsPromise :: mid) in
  let last := step before.1 (TimerFired id) in
  SetTimeout id 5000 ∈ before.2 /\
  (forall p, AdSettled id p ∉ before.2) /\
  (exists req, requests last.1 !! id = Some req /\
               result req = Fulfilled unknown) /\
  AdSettled id (Fulfilled unknown) ∈ last.2 /\
  needsPause ctx (history ++ before.2 ++ last.2) = false /\
  needsMute ctx (history ++ before.2 ++ last.2) = false.
Proof.
  intros Hreg id Hmid before last.
  set (Q := fun e : Effect => forall p, e <> AdSettled id p).
  set (P := fun w : World =>
              registered ctx w /\ didShowAd w = false /\
              exists req, requests w !! id = Some req /\ outstanding req = true
                          /\ timerArmed req = true).
  assert (forall w t, P w ->
            negb (isEvent "IMPRESSION" t) && negb (settlesSdkPromise id t)
            && negb (firesTimer id t) = true ->
            P (step w t).1 /\ Forall Q (step w t).2) as Hinv.
  { intros w0 t (Hr0 & Hd0 & req0 & Hreq0 & Ho0 & Ha0)
      [[Hi Hs]%andb_true_iff Hf]%andb_true_iff.
    apply negb_true_iff in Hi, Hs, Hf.
    assert (outstanding (task_request t w0 id req0) = true) as Ho1.
    { apply task_request_outstanding; [done..|]. congruence. }
    destruct (step_outstanding t w0 id req0 Hreq0 Ho1) as [Hl HQ].
    split; [|done]. split; [by apply step_registered|]. split.
    - rewrite step_didShowAd. by apply task_didShowAd_false.
    - eexists. split; [exact Hl|]. split; [done|].
      destruct t; simpl in *; try done; case_decide; try done.
      subst. by rewrite Nat.eqb_refl in Hf. }
  (* the call *)
  set (start := CallShowRewardedAd SdkReturnsPromise) in *.
  assert (P (step w start).1 /\ Forall Q (step w start).2
          /\ SetTimeout id 5000 ∈ (step w start).2) as (HP0 & HQ0 & Hset).
  { destruct (step_start ShowRewardedAd SdkReturnsPromise w) as [Hl _].
    rewrite resume_quiet in Hl by done. cbn [fst] in Hl. fold start id in Hl.
    split; [|split].
    - split; [by apply step_registered|]. split.
      + by rewrite step_didShowAd.
      + eexists. split; [exact Hl|]. done.
    - apply Forall_forall. intros e He p ->.
      apply step_effects in He as [He|[He|(k & req' & Hk & He)]].
      + by apply task_effects in He.
      + apply initialize_resume_effects in He as [?|[? ?]]; done.
      + pose proof (resume_effects _ _ _ _ He) as [(c & _ & [?|?])|(p' & Hp & _)];
          try done.
        injection Hp as <- _.
        pose proof (start_lookup ShowRewardedAd SdkReturnsPromise w) as Hn.
        fold id in Hn. simpl in Hn, Hk. rewrite Hn in Hk. injection Hk as <-.
        rewrite resume_quiet in He by done. by apply elem_of_nil in He.
    - apply step_effects. left.
      rewrite (start_effects ShowRewardedAd SdkReturnsPromise w
               : (task start w).2 = _).
      apply elem_of_cons. right. by apply list_elem_of_singleton. }
  assert (P before.1 /\ Forall Q before.2) as [HP1 HQ1].
  { subst before. rewrite run_cons. cbn [fst snd].
    destruct (run_invariant P Q _ Hinv mid _ HP0 Hmid) as [? ?].
    split; [done|]. by apply Forall_app. }
  destruct HP1 as (Hr1 & Hd1 & req1 & Hreq1 & Ho1 & Ha1).
  (* the timer fires *)
  destruct (step_request (TimerFired id) before.1 id req1 Hreq1) as [Hl He].
  fold last in Hl, He.
  assert (resume last.1 id (task_request (TimerFired id) before.1 id req1)
          = ({| operation := operation req1; sdkCall := Pending;
                showAdPromise := Pending; timerArmed := false;
                timeoutPromise := Fulfilled (Some unknown);
                raced := Fulfilled (Some unknown);
                safeShowAdPromise := Fulfilled (Some unknown);
                result := Fulfilled unknown |},
             [CtxSetNeedsMute ctx false; CtxSetNeedsPause ctx false;
              AdSettled id (Fulfilled unknown)])) as Hres.
  { assert (pluginContext last.1 = Some ctx) as Hc
        by (by destruct (step_registered (TimerFired id) _ _ Hr1)).
    simpl. rewrite decide_True by done. rewrite Ha1.
    rewrite (outstanding_inv req1 Ho1).
    unfold timeout, resume. simpl. by rewrite Hd1, Hc. }
  rewrite Hres in Hl, He. cbn [fst snd] in Hl, He.
  destruct (step_never_pauses (TimerFired id) before.1 ctx eq_refl) as [Hnp Hnm].
  fold last in Hnp, Hnm.
  split.
  { subst before. rewrite run_cons. cbn [snd]. apply elem_of_app. by left. }
  split.
  { intros p Hin. eapply Forall_forall in HQ1; [|exact Hin]. by apply (HQ1 p). }
  split; [eauto|].
  split.
  { apply He. rewrite !elem_of_cons. auto. }
  split.
  - rewrite app_assoc. apply needsPause_reset; [|done].
    apply He. rewrite !elem_of_cons. auto.
  - rewrite app_assoc. apply needsMute_reset; [|done].
    apply He. rewrite !elem_of_cons. auto.
Qed.

(** C3, where the code departs from it. [initialize(7)] is called and has
    registered its handler; the SDK delivers SDK_READY to that handler while
    the script is still being imported. [resolveInitialize] is assigned only
    after the import, on line 123, so the handler throws and the event is
    lost: when the import has completed, [initialize] is suspended on a
    promise that nothing resolves. SDK_READY has been observed, and the
    promise returned by [initialize] is not fulfilled, neither then nor by
    the tasks that follow. *)
Theorem ready_during_import_is_lost :
  let ts := [CallInitialize 7; deliver "SDK_READY"; ImportSettled None] in
  let out := run examplePage ts in
  let later := [CallShowFullScreenAd SdkReturnsPromise; deliver "IMPRESSION";
                SdkPromiseSettled 0 None; deliver "SDK_GAME_START"] in
  registered 7 loadingPage /\
  existsb (isEvent "SDK_READY") ts = true /\
  out.2 = [ImportScript sdkUrl;
           Threw (typeError "resolveInitialize is not a function")] /\
  resolutions out.2 = 0 /\
  initializeFrame out.1 = AwaitingReady /\
  resolveInitialize out.1 = Some Pending /\
  resolutions (run out.1 later).2 = 0 /\
  initializeFrame (run out.1 later).1 = AwaitingReady.
Proof.
  split; [split; [vm_compute; reflexivity|exists "game"; vm_compute; reflexivity]|].
  vm_compute. repeat split.
Qed.

(** C4. Once [initialize] has been called, whatever has happened since, a
    further call of [initialize] is rejected with the error "GameDistribution
    plugin is being initialized more than once" and does nothing else: the
    page is the same afterwards (the stored context, [window.GD_OPTIONS]
    with its handler, every flag and every promise) and the rejection is the
    only effect; in particular the script is not imported again. If the first
    call found no [window.GD_OPTIONS], the handler and the stored context
    are still those of the first call. *)
Theorem second_initialize_is_rejected w ctx ts ctx' :
  let w1 := (run (step w (CallInitialize ctx)).1 ts).1 in
  step w1 (CallInitialize ctx')
  = (w1, [InitializeSettled (Rejected duplicateInitialization)]) /\
  initialize ctx' w1
  = (w1, [InitializeSettled (Rejected duplicateInitialization)]) /\
  (GD_OPTIONS w = None ->
   registered ctx w1 /\ registered ctx (step w1 (CallInitialize ctx')).1).
Proof.
  intros w1.
  assert (is_Some (GD_OPTIONS w1)) as [o Ho].
  { subst w1. rewrite run_GD_OPTIONS; apply initialize_sets_GD_OPTIONS. }
  assert (initialize ctx' w1
          = (w1, [InitializeSettled (Rejected duplicateInitialization)])) as Hi.
  { unfold initialize. by rewrite Ho. }
  assert (step w1 (CallInitialize ctx')
          = (w1, [InitializeSettled (Rejected duplicateInitialization)])) as Hs.
  { rewrite stable_step; simpl; rewrite Hi; [done|].
    subst w1. apply run_stable, step_stable. }
  split; [done|]. split; [done|]. intros Hw. rewrite Hs.
  assert (registered ctx w1); [|done].
  by apply run_registered, initialize_registers.
Qed.



(** C6. Let [initialize(ctx)] have passed its guard, so that the plugin's own
    handler is the registered one, and let SDK_REWARDED_WATCH_COMPLETE be
    delivered to it. If the request is the only rewarded one (no further
    [showRewardedAd()] is called afterwards: one request is outstanding at a
    time), and it is still outstanding when the SDK fulfils its promise (so
    neither the timer nor a rejection has produced an outcome), then
    [safeShowAd] returns [null] and the request is fulfilled with
    [{didShowAd: true, errorReason: null}], whatever IMPRESSION events were
    delivered. And the outcome is keyed on the reward flag alone: on any page
    whatsoever, an outstanding rewarded request whose promise the SDK fulfils
    is fulfilled with [{didShowAd: rewardReceived, errorReason: null}] for
    the value that [rewardReceived] has then, whatever the value of
    [didShowAd]; so, without the reward, an impression does not make it
    [true]. *)
Theorem rewarded_outcome_keyed_on_reward w ctx mid id req :
  registered ctx w ->
  forallb (fun t => negb (startsRewardedAd t)) mid = true ->
  let before :=
    (run w (SdkEvent {| name := "SDK_REWARDED_WATCH_COMPLETE" |} :: mid)).1 in
  requests before !! id = Some req ->
  operation req = ShowRewardedAd ->
  outstanding req = true ->
  let last := step before (SdkPromiseSettled id None) in
  (exists req', requests last.1 !! id = Some req' /\
                safeShowAdPromise req' = Fulfilled None /\
                result req' = Fulfilled (shown true)) /\
  AdSettled id (Fulfilled (shown true)) ∈ last.2 /\
  (forall page k r,
     requests page !! k = Some r ->
     operation r = ShowRewardedAd ->
     outstanding r = true ->
     answers (step page (SdkPromiseSettled k None)) k
       (Fulfilled (shown (rewardReceived page))) /\
     (exists r', requests (step page (SdkPromiseSettled k None)).1 !! k = Some r' /\
                 safeShowAdPromise r' = Fulfilled None)).
Proof.
  intros Hopt Hmid before Hreq Hop Ho last.
  assert (forall page k r,
            requests page !! k = Some r ->
            operation r = ShowRewardedAd ->
            outstanding r = true ->
            answers (step page (SdkPromiseSettled k None)) k
              (Fulfilled (shown (rewardReceived page))) /\
            (exists r', requests (step page (SdkPromiseSettled k None)).1 !! k
                        = Some r' /\
                        safeShowAdPromise r' = Fulfilled None)) as Hkeyed.
  { intros page k r Hr Hopr Hor.
    pose proof (fulfilment_answers page k r Hr Hor) as Ha.
    rewrite Hopr in Ha. split; [exact Ha|].
    destruct (step_request (SdkPromiseSettled k None) page k r Hr) as [Hl _].
    revert Hl. simpl. rewrite decide_True by done.
    rewrite (outstanding_inv r Hor). unfold sdkSettles, resume. simpl. eauto. }
  cut ((exists req', requests last.1 !! id = Some req' /\
                     safeShowAdPromise req' = Fulfilled None /\
                     result req' = Fulfilled (shown true)) /\
       AdSettled id (Fulfilled (shown true)) ∈ last.2).
  { intros [H1 H2]. split; [exact H1|]. split; [exact H2|exact Hkeyed]. }
  clear Hkeyed.
  assert (rewardReceived before = true) as Hrew.
  { subst before. rewrite run_cons. cbn [fst].
    refine (proj1 (run_invariant (fun w => rewardReceived w = true)
                     (fun _ => True) _ _ mid _ _ Hmid)).
    - intros w0 t Hw0 Ht. split; [|by apply Forall_true].
      rewrite step_rewardReceived.
      apply task_rewardReceived_true; [by apply negb_true_iff|done].
    - rewrite step_rewardReceived. by apply (task_REWARDED ctx). }
  destruct (step_request (SdkPromiseSettled id None) before id req Hreq)
    as [Hl He].
  fold last in Hl, He.
  assert (rewardReceived last.1 = true) as Hrew'.
  { subst last. rewrite step_rewardReceived. simpl.
    by destruct (on_request_vars id (sdkSettles None) before) as (_ & _ & -> & _). }
  revert Hl He. simpl. rewrite decide_True by done.
  rewrite (outstanding_inv req Ho), Hop.
  unfold sdkSettles, resume, operation_resume. simpl. rewrite Hrew'.
  intros Hl He. split; [eauto|].
  apply He. apply elem_of_app. right. by apply list_elem_of_singleton.
Qed.

(** C7. On every page that the plugin can reach, after every step and for
    every request: if [safeShowAd] has returned an outcome that is not
    [null], the outcome is [{didShowAd: false, errorReason:
    "time-constraint"}] or [{didShowAd: false, errorReason: "unknown"}] and
    it is the result of the public operation; if it has returned [null], the
    public operation is fulfilled with an outcome without error reason, which,
    in the step in which [safeShowAd] returns, is read from the flag of the
    operation ([didShowAd] for a full-screen ad, [rewardReceived] for a
    rewarded ad) as it is then; while [safeShowAd] is pending so is the
    operation, and what [safeShowAd] throws the operation throws. *)
Theorem coordinator_outcomes g d h o f ts t id req' :
  let w := (run (gameDistributionPlugin g d h o f) ts).1 in
  let w' := (step w t).1 in
  requests w' !! id = Some req' ->
  match safeShowAdPromise req' with
  | Fulfilled (Some r) =>
      (r = timeConstraint \/ r = unknown) /\ result req' = Fulfilled r
  | Fulfilled None =>
      (exists b, result req' = Fulfilled (shown b)) /\
      ((forall req, requests w !! id = Some req ->
                    safeShowAdPromise req = Pending) ->
       result req' = Fulfilled (shown (derivedFlag (operation req') w')))
  | Pending => result req' = Pending
  | Rejected e => result req' = Rejected e
  end.
Proof.
  intros w w' Hreq'.
  assert (Forall sane (requests w)) as Hsane by (by apply run_sane).
  assert (sane req') as Hs'.
  { eapply Forall_lookup_1; [apply (step_sane t), Hsane|exact Hreq']. }
  destruct Hs' as (H1 & H2 & H3 & H4 & H5).
  destruct (safeShowAdPromise req') as [|[r|]|e] eqn:Hsf; try done.
  - split; [|done].
    destruct H4 as [?| Hra]; [done|]. rewrite <- Hra in H3.
    destruct H3 as [?|[Hsa|Htp]]; [done| |].
    + destruct H1 as [H1|H1]; [congruence|]. left.
      apply (showAd_Some (sdkCall req')). congruence.
    + destruct H2 as [H2|H2]; [congruence|]. right. congruence.
  - split; [done|]. intros Hbefore.
    apply step_lookup_inv in Hreq' as (r0 & Hr0 & ->). fold w' in Hsf |- *.
    assert (result r0 = Pending) as Hre.
    { apply task_lookup_inv in Hr0 as [(req & Hreq & ->)|(_ & op & sdk & _ & ->)];
        [|done].
      destruct (task_request_waiting t w id req) as (_ & -> & _).
      pose proof (Forall_lookup_1 _ _ _ _ Hsane Hreq) as (_ & _ & _ & _ & H).
      by rewrite (Hbefore req Hreq) in H. }
    revert Hsf. unfold resume. cbn [fst safeShowAdPromise result operation].
    intros ->. by rewrite Hre.
Qed.

(** C8, where the code departs from it. [initialize(7)] has registered the
    handler and awaits the import of the SDK's script; [resolveInitialize] is
    still [undefined]. Delivering SDK_READY now makes the handler throw a
    [TypeError]. *)
Theorem ready_during_import_throws :
  GD_OPTIONS loadingPage = Some {| gameId := "game"; onEvent_ctx := 7 |} /\
  initializeFrame loadingPage = AwaitingImport /\
  resolveInitialize loadingPage = None /\
  onEvent 7 {| name := "SDK_READY" |} loadingPage
  = Throw (typeError "resolveInitialize is not a function") /\
  step loadingPage (deliver "SDK_READY")
  = (loadingPage, [Threw (typeError "resolveInitialize is not a function")]).
Proof. vm_compute. repeat split. Qed.

(** C9. [showBannerAd(options)] calls [window.gdsdk.showAd] with
    [AdType.Display] and [{containerId: options.id}], on any page and whatever
    the flags are, and returns [undefined] unless that call throws. On every
    page that the plugin can reach the call is the whole step: the page is the
    same afterwards, [didShowAd] and [rewardReceived] included, no request is
    recorded, no timer is set, and the host context is not called. *)
Theorem banner_bypasses_the_coordinator g d h o f ts w0 id sdk :
  let w := (run (gameDistributionPlugin g d h o f) ts).1 in
  showBannerAd id sdk w0
  = (w0, [GdsdkShowAd Display (Some id)],
     match sdk with
     | SdkThrows e => Throw e
     | _ => Normal (Prim Undefined)
     end) /\
  step w (CallShowBannerAd id sdk)
  = (w, GdsdkShowAd Display (Some id)
        :: match sdk with SdkThrows e => [Threw e] | _ => [] end).
Proof.
  intros w. split; [done|].
  assert (stable w) as Hs by apply run_stable, plugin_stable.
  rewrite stable_step; simpl; [|done]. by destruct sdk.
Qed.

(** C10. Let [initialize(ctx)] have passed its guard, so that the plugin's
    own handler is the registered one, and let a full-screen or rewarded
    request be outstanding. If an IMPRESSION event is delivered to the
    handler, the request stays the only one until its timer fires (no new ad
    request is started before: one request is outstanding at a time), and the
    SDK never settles the promise of the request, then after any further
    tasks the promise of the request is still pending and the host was never
    told of a settlement: the timer, having found [didShowAd] set, did
    nothing. *)
Theorem impression_then_timeout_never_settles w ctx id req mid post :
  requests w !! id = Some req ->
  outstanding req = true ->
  registered ctx w ->
  forallb (fun t => negb (startsAd t) && negb (settlesSdkPromise id t)) mid = true ->
  forallb (fun t => negb (settlesSdkPromise id t)) post = true ->
  let out :=
    run w (SdkEvent {| name := "IMPRESSION" |} :: mid ++ TimerFired id :: post) in
  (exists req', requests out.1 !! id = Some req' /\ result req' = Pending /\
                outstanding req' = true /\ timerArmed req' = false) /\
  forall p, AdSettled id p ∉ out.2.
Proof.
  intros Hreq Ho Hopt Hmid Hpost out.
  set (Q := fun e : Effect => forall p, e <> AdSettled id p).
  set (P1 := fun w : World =>
               didShowAd w = true /\
               exists req, requests w !! id = Some req /\ outstanding req = true).
  set (P2 := fun w : World =>
               exists req, requests w !! id = Some req /\ outstanding req = true /\
                           timerArmed req = false).
  assert (forall w t, P1 w -> negb (settlesSdkPromise id t) = true ->
                      (exists req, requests (step w t).1 !! id = Some req /\
                                   outstanding req = true /\
                                   (firesTimer id t = true -> timerArmed req = false)) /\
                      Forall Q (step w t).2) as Hstep1.
  { intros w0 t [Hd (req0 & Hreq0 & Ho0)] Ht. apply negb_true_iff in Ht.
    assert (outstanding (task_request t w0 id req0) = true) as Ho1
        by (by apply task_request_outstanding).
    destruct (step_outstanding t w0 id req0 Hreq0 Ho1) as [Hl HQ].
    split; [|done]. eexists. split; [exact Hl|]. split; [done|].
    destruct t; simpl; try done. intros ->%Nat.eqb_eq.
    rewrite decide_True by done. by destruct (timerArmed req0) eqn:Ha. }
  assert (forall w t, P1 w ->
            negb (startsAd t) && negb (settlesSdkPromise id t) = true ->
            P1 (step w t).1 /\ Forall Q (step w t).2) as Hinv1.
  { intros w0 t HP [Hn Ht]%andb_true_iff.
    destruct (Hstep1 w0 t HP Ht) as [(req1 & Hl & Ho1 & _) HQ].
    split; [|done]. split; [|eauto].
    rewrite step_eq. cbn [fst].
    destruct (microtasks_vars (task t w0).1) as (_ & -> & _).
    apply task_didShowAd_true; [by apply negb_true_iff|by destruct HP]. }
  assert (forall w t, P2 w -> negb (settlesSdkPromise id t) = true ->
            P2 (step w t).1 /\ Forall Q (step w t).2) as Hinv2.
  { intros w0 t (req0 & Hreq0 & Ho0 & Ha0) Ht. apply negb_true_iff in Ht.
    assert (outstanding (task_request t w0 id req0) = true) as Ho1.
    { apply task_request_outstanding; [done..|]. intros _ Ha. congruence. }
    destruct (step_outstanding t w0 id req0 Hreq0 Ho1) as [Hl HQ].
    split; [|done]. eexists. split; [exact Hl|]. split; [done|].
    by apply task_request_disarmed. }
  (* the IMPRESSION event *)
  assert (P1 (step w (SdkEvent {| name := "IMPRESSION" |})).1 /\
          Forall Q (step w (SdkEvent {| name := "IMPRESSION" |})).2) as [HP0 HQ0].
  { assert (outstanding (task_request (SdkEvent {| name := "IMPRESSION" |}) w id req)
            = true) as Ho1 by done.
    destruct (step_outstanding _ w id req Hreq Ho1) as [Hl HQ].
    split; [|done]. split; [|eauto].
    rewrite step_eq. cbn [fst].
    destruct (microtasks_vars (task (SdkEvent {| name := "IMPRESSION" |}) w).1)
      as (_ & -> & _).
    by apply (task_IMPRESSION ctx). }
  subst out. rewrite run_cons, run_app. cbn [fst snd].
  set (w0 := (step w (SdkEvent {| name := "IMPRESSION" |})).1) in *.
  destruct (run_invariant P1 Q _ Hinv1 mid w0 HP0 Hmid) as [HP1 HQ1].
  set (w1 := (run w0 mid).1) in *.
  rewrite run_cons. cbn [fst snd].
  destruct (Hstep1 w1 (TimerFired id) HP1 eq_refl) as [(req2 & Hl2 & Ho2 & Ha2) HQ2].
  assert (P2 (step w1 (TimerFired id)).1) as HP2.
  { exists req2. split; [done|]. split; [done|]. apply Ha2. simpl.
    apply Nat.eqb_refl. }
  destruct (run_invariant P2 Q _ Hinv2 post _ HP2 Hpost) as [HP3 HQ3].
  split.
  - destruct HP3 as (req3 & Hl3 & Ho3 & Ha3). exists req3.
    split; [done|]. split; [|done].
    unfold outstanding in Ho3. apply pending_eq.
    by destruct (pending (result req3)); rewrite ?andb_false_r in Ho3.
  - intros p Hin.
    assert (Q (AdSettled id p)) as HQ; [|by apply (HQ p)].
    revert Hin. apply Forall_forall. by repeat (apply Forall_app; split).
Qed.

(** ** The theorems at concrete pages *)

(** C10 on a page where [showFullScreenAd()] is outstanding: IMPRESSION,
    then SDK_GAME_PAUSE, then the timer, then SDK_GAME_START. *)
Lemma impression_then_timeout_never_settles_witness :
  let w := showingPage ShowFullScreenAd in
  let out :=
    run w (SdkEvent {| name := "IMPRESSION" |}
             :: [deliver "SDK_GAME_PAUSE"]
             ++ TimerFired 0 :: [TimerFired 0; deliver "SDK_GAME_START"]) in
  registered 7 w /\
  requests w !! 0 = Some (newRequest ShowFullScreenAd SdkReturnsPromise) /\
  (exists req', requests out.1 !! 0 = Some req' /\ result req' = Pending /\
                outstanding req' = true /\ timerArmed req' = false) /\
  forall p, AdSettled 0 p ∉ out.2.
Proof.
  assert (registered 7 (showingPage ShowFullScreenAd)) as Hreg.
  { split; [vm_compute; reflexivity|]. exists "game". vm_compute; reflexivity. }
  split; [exact Hreg|].
  split; [vm_compute; reflexivity|].
  apply (impression_then_timeout_never_settles
           (showingPage ShowFullScreenAd) 7 0
           (newRequest ShowFullScreenAd SdkReturnsPromise)
           [deliver "SDK_GAME_PAUSE"] [TimerFired 0; deliver "SDK_GAME_START"]).
  - vm_compute; reflexivity.
  - vm_compute; reflexivity.
  - exact Hreg.
  - vm_compute; reflexivity.
  - vm_compute; reflexivity.
Defined.

(** C2 on the page where [initialize(7)] has returned: SDK_GAME_PAUSE is
    delivered while the rewarded ad is outstanding, then the timer fires. *)
Lemma rewarded_timeout_resolves_unknown_witness :
  let before :=
    run readyPage [CallShowRewardedAd SdkReturnsPromise; deliver "SDK_GAME_PAUSE"] in
  let last := step before.1 (TimerFired 0) in
  registered 7 readyPage /\
  needsPause 7 before.2 = true /\
  SetTimeout 0 5000 ∈ before.2 /\
  (forall p, AdSettled 0 p ∉ before.2) /\
  (exists req, requests last.1 !! 0 = Some req /\
               result req = Fulfilled unknown) /\
  AdSettled 0 (Fulfilled unknown) ∈ last.2 /\
  needsPause 7 ([] ++ before.2 ++ last.2) = false /\
  needsMute 7 ([] ++ before.2 ++ last.2) = false.
Proof.
  assert (registered 7 readyPage) as Hreg.
  { split; [vm_compute; reflexivity|]. exists "game". reflexivity. }
  split; [exact Hreg|]. split; [vm_compute; reflexivity|].
  apply (rewarded_timeout_resolves_unknown readyPage 7 []
           [deliver "SDK_GAME_PAUSE"] Hreg).
  reflexivity.
Defined.

(** C6 on a page where [showRewardedAd()] is outstanding: the reward event,
    then IMPRESSION, then the SDK fulfils its promise, and the request is
    fulfilled with [true]; and on the same page with the IMPRESSION but
    without the reward event, where it is fulfilled with [false]. *)
Lemma rewarded_outcome_keyed_on_reward_witness :
  let w := showingPage ShowRewardedAd in
  let before :=
    (run w [SdkEvent {| name := "SDK_REWARDED_WATCH_COMPLETE" |};
            deliver "IMPRESSION"]).1 in
  let last := step before (SdkPromiseSettled 0 None) in
  let impression := (step w (deliver "IMPRESSION")).1 in
  registered 7 w /\
  requests before !! 0 = Some (newRequest ShowRewardedAd SdkReturnsPromise) /\
  (exists req', requests last.1 !! 0 = Some req' /\
                safeShowAdPromise req' = Fulfilled None /\
                result req' = Fulfilled (shown true)) /\
  AdSettled 0 (Fulfilled (shown true)) ∈ last.2 /\
  didShowAd impression = true /\
  rewardReceived impression = false /\
  answers (step impression (SdkPromiseSettled 0 None)) 0
    (Fulfilled (shown false)).
Proof.
  intros w before last impression.
  assert (registered 7 w) as Hreg.
  { split; [vm_compute; reflexivity|]. exists "game". vm_compute; reflexivity. }
  assert (requests before !! 0
          = Some (newRequest ShowRewardedAd SdkReturnsPromise)) as Hreq
      by (vm_compute; reflexivity).
  assert (requests impression !! 0
          = Some (newRequest ShowRewardedAd SdkReturnsPromise)) as Hreq'
      by (vm_compute; reflexivity).
  assert (rewardReceived impression = false) as Hrew by (vm_compute; reflexivity).
  destruct (rewarded_outcome_keyed_on_reward w 7 [deliver "IMPRESSION"] 0
              (newRequest ShowRewardedAd SdkReturnsPromise)
              Hreg eq_refl Hreq eq_refl eq_refl) as (Hres & Hin & Hkeyed).
  split; [exact Hreg|]. split; [exact Hreq|]. split; [exact Hres|].
  split; [exact Hin|]. split; [vm_compute; reflexivity|]. split; [exact Hrew|].
  destruct (Hkeyed impression 0 _ Hreq' eq_refl eq_refl) as [Ha _].
  rewrite Hrew in Ha. exact Ha.
Defined.

(** C7 at the step in which the timer of an outstanding full-screen ad
    fires, and at the step in which the SDK fulfils its promise after an
    IMPRESSION. *)
Lemma coordinator_outcomes_witness :
  let shown_to := [CallInitialize 7; ImportSettled None; deliver "SDK_READY";
                   CallShowFullScreenAd SdkReturnsPromise] in
  let w1 := (run examplePage shown_to).1 in
  let w2 := (run examplePage (shown_to ++ [deliver "IMPRESSION"])).1 in
  (exists req',
     requests (step w1 (TimerFired 0)).1 !! 0 = Some req' /\
     safeShowAdPromise req' = Fulfilled (Some unknown) /\
     result req' = Fulfilled unknown) /\
  (exists req',
     requests (step w2 (SdkPromiseSettled 0 None)).1 !! 0 = Some req' /\
     safeShowAdPromise req' = Fulfilled None /\
     didShowAd (step w2 (SdkPromiseSettled 0 None)).1 = true /\
     result req' = Fulfilled (shown true)).
Proof.
  intros shown_to w1 w2. split.
  - set (req' := {| operation := ShowFullScreenAd; sdkCall := Pending;
                    showAdPromise := Pending; timerArmed := false;
                    timeoutPromise := Fulfilled (Some unknown);
                    raced := Fulfilled (Some unknown);
                    safeShowAdPromise := Fulfilled (Some unknown);
                    result := Fulfilled unknown |}).
    assert (requests (step w1 (TimerFired 0)).1 !! 0 = Some req') as Hl
        by (vm_compute; reflexivity).
    exists req'. split; [exact Hl|]. split; [reflexivity|].
    exact (proj2 (coordinator_outcomes "game" (Some false) "example.com" None
                    false shown_to (TimerFired 0) 0 req' Hl)).
  - set (req' := {| operation := ShowFullScreenAd; sdkCall := Fulfilled tt;
                    showAdPromise := Fulfilled None; timerArmed := true;
                    timeoutPromise := Pending; raced := Fulfilled None;
                    safeShowAdPromise := Fulfilled None;
                    result := Fulfilled (shown true) |}).
    assert (requests (step w2 (SdkPromiseSettled 0 None)).1 !! 0 = Some req')
      as Hl by (vm_compute; reflexivity).
    assert (didShowAd (step w2 (SdkPromiseSettled 0 None)).1 = true) as Hd
        by (vm_compute; reflexivity).
    assert (forall req, requests w2 !! 0 = Some req ->
                        safeShowAdPromise req = Pending) as Hbefore.
    { assert (requests w2 !! 0
              = Some (newRequest ShowFullScreenAd SdkReturnsPromise)) as Hw2
          by (vm_compute; reflexivity).
      intros req Hreq. rewrite Hw2 in Hreq. injection Hreq as <-.
      reflexivity. }
    exists req'. split; [exact Hl|]. split; [reflexivity|]. split; [exact Hd|].
    etransitivity.
    + exact (proj2 (coordinator_outcomes "game" (Some false) "example.com"
                      None false (shown_to ++ [deliver "IMPRESSION"])
                      (SdkPromiseSettled 0 None) 0 req' Hl) Hbefore).
    + apply (f_equal (fun b => Fulfilled (shown b)) Hd).
Defined.


(** C4 for a second call, with another context, after [initialize(7)] has
    returned. *)
Lemma second_initialize_is_rejected_witness :
  GD_OPTIONS examplePage = None /\
  step readyPage (CallInitialize 8)
  = (readyPage, [InitializeSettled (Rejected duplicateInitialization)]) /\
  registered 7 (step readyPage (CallInitialize 8)).1.
Proof.
  destruct (second_initialize_is_rejected examplePage 7
              [ImportSettled None; deliver "SDK_READY"] 8)
    as (Hstep & _ & Hreg).
  split; [vm_compute; reflexivity|]. split; [exact Hstep|].
  exact (proj2 (Hreg eq_refl)).
Defined.
(** ** Further properties of the plugin *)

(** *** The default of [debug] *)

Lemma prefix_append (n h : string) :
  String.prefix n h = true <-> exists rest, h = n +:+ rest.
Proof.
  revert h. induction n as [|a n IH]; intros [|b h]; simpl.
  - split; [by exists ""|done].
  - split; [by exists (String b h)|done].
  - split; [done|]. by intros [rest ?].
  - destruct (Ascii.ascii_dec a b) as [->|Hne].
    + rewrite IH. split; intros [rest Hr]; exists rest.
      * subst h. reflexivity.
      * change (String b h = String b (n +:+ rest)) in Hr. congruence.
    + split; [done|]. intros [rest Hr].
      change (String b h = String a (n +:+ rest)) in Hr. congruence.
Qed.

Lemma includes_substring (n h : string) :
  includes n h = true <-> exists before rest, h = before +:+ n +:+ rest.
Proof.
  induction h as [|b h IH]; cbn [includes]; rewrite orb_true_iff, prefix_append.
  - split.
    + intros [[rest Hr]|?]; [|done]. by exists "", rest.
    + intros (before & rest & Hr). left.
      destruct before; [by exists rest|done].
  - rewrite IH. split.
    + intros [[rest Hr]|(before & rest & ->)].
      * by exists "", rest.
      * by exists (String b before), rest.
    + intros ([|c before] & rest & Hr).
      * left. by exists rest.
      * right. change (String b h = String c (before +:+ n +:+ rest)) in Hr.
        injection Hr as -> ->. eauto.
Qed.

(** X1. A plugin made without a [debug] option is in debug mode exactly when
    the host name of the page contains "localhost" somewhere, and a plugin
    made with the option has the value given, whatever the host name. *)
Theorem debug_defaults_to_localhost g hostname o f :
  (debug (gameDistributionPlugin g None hostname o f) = true <->
   exists before rest, hostname = before +:+ "localhost" +:+ rest) /\
  (forall d, debug (gameDistributionPlugin g (Some d) hostname o f) = d).
Proof. split; [apply includes_substring|done]. Qed.

Lemma debug_defaults_to_localhost_witness :
  debug (gameDistributionPlugin "game" None "localhost.example.com" None false)
  = true.
Proof.
  refine (proj2 (proj1 (debug_defaults_to_localhost
                          "game" "localhost.example.com" None false)) _).
  exists "", ".example.com". reflexivity.
Defined.

(** *** The event handler on the pages that the plugin reaches *)

Lemma run_reaches g d h o f ts :
  let w := (run (gameDistributionPlugin g d h o f) ts).1 in
  stable w /\ handshake w /\ Forall sane (requests w).
Proof.
  intros w. split; [apply run_stable, plugin_stable|]. split.
  - by apply run_handshake, plugin_handshake.
  - by apply run_sane.
Qed.

(** X2. On every page that the plugin can reach, the delivery of an event
    whose name is none of the five that the handler knows changes nothing on
    the page and has no effect: nothing is thrown, no promise settles, the
    host context is not called. *)
Theorem unknown_events_are_ignored g d h o f ts ev :
  let w := (run (gameDistributionPlugin g d h o f) ts).1 in
  name ev ∉ ["SDK_READY"; "SDK_GAME_PAUSE"; "SDK_GAME_START";
             "SDK_REWARDED_WATCH_COMPLETE"; "IMPRESSION"] ->
  step w (SdkEvent ev) = (w, []).
Proof.
  intros w Hn. destruct (run_reaches g d h o f ts) as (Hs & _). fold w in Hs.
  assert (task (SdkEvent ev) w = (w, [])) as Ht.
  { simpl. destruct (pluginHandler w); [|done]. by rewrite onEvent_unknown. }
  rewrite stable_step; rewrite Ht; done.
Qed.

Lemma unknown_events_are_ignored_witness :
  let w := (run examplePage
              [CallInitialize 7; ImportSettled None; deliver "SDK_READY"]).1 in
  step w (SdkEvent {| name := "SDK_ERROR" |}) = (w, []).
Proof.
  refine (unknown_events_are_ignored "game" (Some false) "example.com" None false
            [CallInitialize 7; ImportSettled None; deliver "SDK_READY"]
            {| name := "SDK_ERROR" |} _).
  simpl. intros H.
  repeat (apply elem_of_cons in H as [H|H]; [discriminate H|]).
  by apply elem_of_nil in H.
Defined.

(** X3. Once the SDK's script has been imported ([initialize] is suspended
    on its promise, or has returned), no event makes the handler throw,
    whatever its name. *)
Theorem handler_completes_after_import g d h o f ts ev :
  let w := (run (gameDistributionPlugin g d h o f) ts).1 in
  initializeFrame w = AwaitingReady \/ initializeFrame w = InitializeReturned ->
  (forall ctx, exists r, onEvent ctx ev w = Normal r) /\
  (forall e, Threw e ∉ (step w (SdkEvent ev)).2).
Proof.
  intros w Hfr. destruct (run_reaches g d h o f ts) as (_ & Hh & _).
  fold w in Hh.
  assert (is_Some (resolveInitialize w)) as Hri.
  { unfold handshake in Hh. destruct Hfr as [Hfr|Hfr]; rewrite Hfr in Hh;
      destruct Hh as [-> _]; by eexists. }
  assert (forall ctx, exists r, onEvent ctx ev w = Normal r) as Hall.
  { intros ctx. destruct (onEvent ctx ev w) as [r|e] eqn:Hon; [eauto|].
    apply onEvent_throws in Hon as (_ & Hnone & _). rewrite Hnone in Hri.
    by destruct Hri. }
  split; [done|]. intros e He.
  apply step_effects in He as [He|[He|(k & req' & Hk & He)]].
  - simpl in He. destruct (pluginHandler w) as [c|]; [|by apply elem_of_nil in He].
    destruct (Hall c) as [r Hr]. rewrite Hr in He.
    revert He. clear -Hr. unfold onEvent in Hr.
    repeat case_match; simplify_eq; simpl;
      rewrite ?elem_of_cons, ?elem_of_nil; intuition discriminate.
  - apply initialize_resume_effects in He as [?|[? ?]]; done.
  - apply resume_effects in He as [(c & _ & [?|?])|(p' & ? & _)]; done.
Qed.

Lemma handler_completes_after_import_witness :
  let w := (run examplePage
              [CallInitialize 7; ImportSettled None; deliver "SDK_READY"]).1 in
  initializeFrame w = InitializeReturned /\
  forall e, Threw e ∉ (step w (SdkEvent {| name := "SDK_READY" |})).2.
Proof.
  intros w.
  assert (initializeFrame w = InitializeReturned) as Hfr
      by (vm_compute; reflexivity).
  split; [exact Hfr|].
  exact (proj2 (handler_completes_after_import "game" (Some false)
                  "example.com" None false
                  [CallInitialize 7; ImportSettled None; deliver "SDK_READY"]
                  {| name := "SDK_READY" |} (or_intror Hfr))).
Defined.

(** *** The game is paused by the SDK only *)

Lemma needsPause_kept ctx history effects :
  Forall (fun e => forall c, e <> CtxSetNeedsPause c true) effects ->
  needsPause ctx (history ++ effects) = true -> needsPause ctx history = true.
Proof.
  induction effects as [|e effects IH] using rev_ind; [by rewrite app_nil_r|].
  intros [Hl He]%Forall_app. rewrite Forall_singleton in He.
  rewrite app_assoc, needsPause_snoc.
  destruct e as [c b| | | | | | | |]; try (by apply IH).
  case_decide; [|by apply IH]. destruct b; [|done]. by destruct (He c).
Qed.

Lemma needsMute_kept ctx history effects :
  Forall (fun e => forall c, e <> CtxSetNeedsMute c true) effects ->
  needsMute ctx (history ++ effects) = true -> needsMute ctx history = true.
Proof.
  induction effects as [|e effects IH] using rev_ind; [by rewrite app_nil_r|].
  intros [Hl He]%Forall_app. rewrite Forall_singleton in He.
  rewrite app_assoc, needsMute_snoc.
  destruct e as [|c b| | | | | | |]; try (by apply IH).
  case_decide; [|by apply IH]. destruct b; [|done]. by destruct (He c).
Qed.

(** X4. The plugin pauses or mutes the game only on SDK_GAME_PAUSE: after any
    tasks among which that event is not delivered, a game that was not paused
    is not paused, and a game that was not muted is not muted. *)
Theorem only_the_sdk_pauses w ctx history ts :
  forallb (fun t => negb (isEvent "SDK_GAME_PAUSE" t)) ts = true ->
  (needsPause ctx history = false ->
   needsPause ctx (history ++ (run w ts).2) = false) /\
  (needsMute ctx history = false ->
   needsMute ctx (history ++ (run w ts).2) = false).
Proof.
  intros Hts.
  assert (Forall (fun e => forall c, e <> CtxSetNeedsPause c true /\
                                     e <> CtxSetNeedsMute c true)
            (run w ts).2) as HQ.
  { refine (proj2 (run_invariant (fun _ => True) _ _ _ ts w I Hts)).
    intros w0 t _ Ht. split; [done|]. apply Forall_forall. intros e He c.
    destruct (step_never_pauses t w0 c) as [Hp Hm]; [by apply negb_true_iff|].
    split; intros ->; done. }
  split; intros Hbefore.
  - destruct (needsPause ctx (history ++ (run w ts).2)) eqn:Hafter; [|done].
    apply needsPause_kept in Hafter; [congruence|].
    eapply Forall_impl; [exact HQ|]. intros e He c. apply He.
  - destruct (needsMute ctx (history ++ (run w ts).2)) eqn:Hafter; [|done].
    apply needsMute_kept in Hafter; [congruence|].
    eapply Forall_impl; [exact HQ|]. intros e He c. apply He.
Qed.

Lemma only_the_sdk_pauses_witness :
  needsPause 7 ([CtxSetNeedsPause 7 false]
                ++ (run readyPage
                      [CallShowFullScreenAd SdkReturnsPromise;
                       deliver "IMPRESSION"; TimerFired 0]).2) = false.
Proof.
  refine (proj1 (only_the_sdk_pauses readyPage 7 [CtxSetNeedsPause 7 false]
                   [CallShowFullScreenAd SdkReturnsPromise; deliver "IMPRESSION";
                    TimerFired 0] _) _).
  - vm_compute; reflexivity.
  - reflexivity.
Defined.

(** X5. On a reachable page where [initialize(ctx)] has passed its guard,
    SDK_GAME_PAUSE pauses and mutes the game and SDK_GAME_START unpauses and
    unmutes it, whatever the flags were; neither changes anything on the
    page. *)
Theorem pause_and_start_are_mirrored g d h o f ts ctx history :
  let w := (run (gameDistributionPlugin g d h o f) ts).1 in
  registered ctx w ->
  let paused := step w (deliver "SDK_GAME_PAUSE") in
  let started := step w (deliver "SDK_GAME_START") in
  paused.1 = w /\ started.1 = w /\
  needsPause ctx (history ++ paused.2) = true /\
  needsMute ctx (history ++ paused.2) = true /\
  needsPause ctx (history ++ started.2) = false /\
  needsMute ctx (history ++ started.2) = false.
Proof.
  intros w Ho%registered_handler paused started.
  destruct (run_reaches g d h o f ts) as (Hs & _). fold w in Hs.
  assert (paused = (w, [CtxSetNeedsPause ctx true; CtxSetNeedsMute ctx true]))
    as ->.
  { subst paused. rewrite stable_step; simpl; rewrite Ho; done. }
  assert (started = (w, [CtxSetNeedsMute ctx false; CtxSetNeedsPause ctx false]))
    as ->.
  { subst started. rewrite stable_step; simpl; rewrite Ho; done. }
  cbn [fst snd]. unfold needsPause, needsMute. rewrite !foldl_app. simpl.
  rewrite !decide_True by done. done.
Qed.

Lemma pause_and_start_are_mirrored_witness :
  let w := (run examplePage
              [CallInitialize 7; ImportSettled None; deliver "SDK_READY"]).1 in
  registered 7 w /\
  needsPause 7 ([] ++ (step w (deliver "SDK_GAME_PAUSE")).2) = true /\
  needsPause 7 ([CtxSetNeedsPause 7 true]
                ++ (step w (deliver "SDK_GAME_START")).2) = false.
Proof.
  intros w.
  assert (registered 7 w) as Hreg.
  { split; [vm_compute; reflexivity|]. exists "game". vm_compute; reflexivity. }
  split; [exact Hreg|].
  destruct (pause_and_start_are_mirrored "game" (Some false) "example.com" None
              false [CallInitialize 7; ImportSettled None; deliver "SDK_READY"]
              7 [] Hreg) as (_ & _ & Hp & _).
  destruct (pause_and_start_are_mirrored "game" (Some false) "example.com" None
              false [CallInitialize 7; ImportSettled None; deliver "SDK_READY"]
              7 [CtxSetNeedsPause 7 true] Hreg) as (_ & _ & _ & _ & Hs & _).
  split; [exact Hp|exact Hs].
Defined.

(** *** Every request is answered once *)

Lemma answersCount_app id l1 l2 :
  answersCount id (l1 ++ l2) = answersCount id l1 + answersCount id l2.
Proof. unfold answersCount. by rewrite List.filter_app, length_app. Qed.

Lemma answersCount_none id l :
  (forall e, e ∈ l -> forall p, e <> AdSettled id p) -> answersCount id l = 0.
Proof.
  unfold answersCount. induction l as [|e l IH]; intros Hl; [done|].
  simpl. destruct e as [| | | | | | |r p|];
    try (apply IH; intros e' He'; apply Hl; by right).
  destruct (Nat.eqb_spec r id) as [->|Hne].
  - exfalso. by eapply (Hl _ ltac:(by left)).
  - apply IH. intros e' He'. apply Hl. by right.
Qed.

Lemma answersCount_resume w k req id :
  answersCount id (resume w k req).2
  = if decide (k = id)
    then if pending (result req) && settled (result (resume w k req).1)
         then 1 else 0
    else 0.
Proof.
  case_decide as Hk.
  - subst k. unfold resume. cbn [fst snd result]. rewrite answersCount_app.
    rewrite (answersCount_none id (_.2)).
    + destruct (pending (result req) && settled _); [|done].
      unfold answersCount. simpl. by rewrite Nat.eqb_refl.
    + intros e He p ->.
      destruct (pending (safeShowAdPromise req)); [|by apply elem_of_nil in He].
      unfold safeShowAd_resume in He.
      destruct (settle (raced req) _); cbn [snd] in He;
        try (by apply elem_of_nil in He).
      destruct (pluginContext w); [|by apply elem_of_nil in He].
      rewrite !elem_of_cons, elem_of_nil in He. intuition discriminate.
  - apply answersCount_none. intros e He p ->.
    apply resume_effects in He as [(c & _ & [?|?])|(p' & Hp & _)]; try done.
    by injection Hp.
Qed.

Lemma answersCount_join_imap id (f : nat -> AdRequest -> list Effect) l i :
  (forall k x, k <> i -> answersCount id (f k x) = 0) ->
  answersCount id (mjoin (imap f l))
  = match l !! i with Some x => answersCount id (f i x) | None => 0 end.
Proof.
  revert f i. induction l as [|x l IH]; intros f i Hf; [by destruct i|].
  rewrite imap_cons. change (mjoin (f 0 x :: imap (f ∘ S) l))
    with (f 0 x ++ mjoin (imap (f ∘ S) l)).
  rewrite answersCount_app. destruct i as [|j]; simpl.
  - rewrite (IH (f ∘ S) (length l)).
    + rewrite (proj2 (lookup_ge_None l (length l))) by lia. lia.
    + intros k y _. by apply Hf.
  - rewrite (Hf 0 x) by done. apply (IH (f ∘ S) j). intros k y Hk.
    apply (Hf (S k)). lia.
Qed.

Lemma step_answersCount w t id :
  answersCount id (step w t).2
  = match requests (task t w).1 !! id with
    | Some r => if pending (result r)
                   && settled (result (resume (task t w).1 id r).1)
                then 1 else 0
    | None => 0
    end.
Proof.
  rewrite step_eq, microtasks_eq. cbn [fst snd]. rewrite !answersCount_app.
  rewrite (answersCount_none id (task t w).2),
          (answersCount_none id (initialize_resume _).2).
  - rewrite (answersCount_join_imap id _ _ id).
    + destruct (requests (task t w).1 !! id) as [r|]; [|done].
      rewrite answersCount_resume. by rewrite decide_True.
    + intros k x Hk. rewrite answersCount_resume. by rewrite decide_False.
  - intros e He p ->. apply initialize_resume_effects in He as [?|[? ?]]; done.
  - intros e He p ->. by apply task_effects in He.
Qed.

Lemma step_toAnswer w t id :
  answersCount id (step w t).2 + toAnswer (step w t).1 id = toAnswer w id.
Proof.
  rewrite step_answersCount. unfold toAnswer. rewrite step_lookup.
  destruct (requests (task t w).1 !! id) as [r|] eqn:Hr; simpl.
  - assert (toAnswer w id = if pending (result r) then 1 else 0) as Hw.
    { unfold toAnswer.
      apply task_lookup_inv in Hr as [(req & -> & ->)|(-> & op & sdk & _ & ->)].
      - by destruct (task_request_waiting t w id req) as (_ & -> & _).
      - by rewrite (proj2 (lookup_ge_None _ _)). }
    unfold toAnswer in Hw. rewrite Hw.
    unfold resume. cbn [fst result].
    destruct (result r); simpl; try done.
    by destruct (operation_resume _ _ _).
  - destruct (requests w !! id) as [req|] eqn:Hreq; [|done].
    by rewrite (task_lookup t w id req Hreq) in Hr.
Qed.

(** X6. Over any run from any page, the host is told of the settlement of a
    request exactly once if the request goes from unanswered to answered
    during the run, and not at all otherwise; in particular never twice, and
    never again for a request that was answered before. *)
Theorem each_request_is_answered_once w ts id :
  answersCount id (run w ts).2 + toAnswer (run w ts).1 id = toAnswer w id /\
  answersCount id (run w ts).2 <= 1.
Proof.
  assert (answersCount id (run w ts).2 + toAnswer (run w ts).1 id
          = toAnswer w id) as Heq.
  { revert w. induction ts as [|t ts IH]; intros w; [done|].
    rewrite run_cons. cbn [fst snd]. rewrite answersCount_app.
    rewrite <- (step_toAnswer w t id), <- (IH (step w t).1). lia. }
  split; [done|].
  assert (toAnswer w id <= 1); [|lia].
  unfold toAnswer. destruct (requests w !! id) as [req|]; [|lia].
  destruct (pending (result req)); lia.
Qed.

(** X7. An answer is final: once the promise of a request has settled, no
    task changes it, be it the timer of the request firing late or the SDK
    settling its promise late. *)
Theorem answers_are_final w ts id req :
  requests w !! id = Some req ->
  settled (result req) = true ->
  exists req', requests (run w ts).1 !! id = Some req' /\
               result req' = result req.
Proof.
  revert w req. induction ts as [|t ts IH]; intros w req Hreq Hs; [eauto|].
  rewrite run_cons. cbn [fst].
  destruct (step_request t w id req Hreq) as [Hl _].
  destruct (IH _ _ Hl) as (req' & Hl' & Hr').
  - unfold resume. cbn [fst result].
    destruct (task_request_waiting t w id req) as (_ & -> & _).
    by rewrite settle_settled.
  - exists req'. split; [done|]. rewrite Hr'.
    unfold resume. cbn [fst result].
    destruct (task_request_waiting t w id req) as (_ & -> & _).
    by rewrite settle_settled.
Qed.

Lemma answers_are_final_witness :
  let w := (step (showingPage ShowFullScreenAd) (SdkPromiseSettled 0 None)).1 in
  exists req',
    requests (run w [deliver "IMPRESSION"; TimerFired 0;
                     SdkPromiseSettled 0 (Some (newError "late"))]).1 !! 0
    = Some req' /\
    result req' = Fulfilled (shown false).
Proof.
  intros w.
  set (req := {| operation := ShowFullScreenAd; sdkCall := Fulfilled tt;
                 showAdPromise := Fulfilled None; timerArmed := true;
                 timeoutPromise := Pending; raced := Fulfilled None;
                 safeShowAdPromise := Fulfilled None;
                 result := Fulfilled (shown false) |}).
  assert (requests w !! 0 = Some req) as Hreq by (vm_compute; reflexivity).
  exact (answers_are_final w
           [deliver "IMPRESSION"; TimerFired 0;
            SdkPromiseSettled 0 (Some (newError "late"))] 0 req Hreq eq_refl).
Defined.

(** *** The step that answers a request *)

Lemma join_imap_single (f : nat -> AdRequest -> list Effect) l i :
  (forall k x, l !! k = Some x -> k <> i -> f k x = []) ->
  mjoin (imap f l) = match l !! i with Some x => f i x | None => [] end.
Proof.
  revert f i. induction l as [|x l IH]; intros f i Hf; [by destruct i|].
  rewrite imap_cons. change (mjoin (f 0 x :: imap (f ∘ S) l))
    with (f 0 x ++ mjoin (imap (f ∘ S) l)).
  destruct i as [|j]; simpl.
  - rewrite (IH (f ∘ S) (length l)).
    + rewrite (proj2 (lookup_ge_None l (length l))) by lia. apply app_nil_r.
    + intros k y Hk _. by apply (Hf (S k)).
  - rewrite (Hf 0 x) by done. apply (IH (f ∘ S) j). intros k y Hk Hne.
    apply (Hf (S k)); [done|lia].
Qed.

Lemma initialize_resume_set_requests rs w :
  initialize_resume w = (w, []) ->
  initialize_resume (set_requests rs w) = (set_requests rs w, []).
Proof.
  destruct w as [? ? ? ? ri ? ? ? fr ?]. unfold initialize_resume. simpl.
  destruct fr; try done. by destruct ri as [[]|].
Qed.

(** On a stable page, the step of a task for an existing request consists of
    the microtasks of that request. *)
Lemma stable_step_on_request t w id req :
  stable w ->
  requests w !! id = Some req ->
  target t w = Some id ->
  (step w t).2 = (resume w id (task_request t w id req)).2 /\
  requests (step w t).1 !! id = Some (resume w id (task_request t w id req)).1.
Proof.
  intros [Hi Hq] Hreq Ht.
  assert (exists f, task t w = (on_request id f w, []) /\
                    f req = task_request t w id req) as (f & Htask & Hf).
  { destruct t; simpl in Ht; try done.
    - apply lookup_lt_Some in Hreq. injection Ht as <-. lia.
    - apply lookup_lt_Some in Hreq. injection Ht as <-. lia.
    - injection Ht as ->. eexists. split; [reflexivity|].
      simpl. by rewrite decide_True.
    - injection Ht as ->. eexists. split; [reflexivity|].
      simpl. by rewrite decide_True. }
  assert (resume (task t w).1 = resume w) as Hres.
  { rewrite Htask. cbn [fst].
    destruct (on_request_vars id f w) as (Hc & Hd & Hr & _).
    unfold resume, operation_resume. by rewrite Hc, Hd, Hr. }
  split.
  - rewrite step_eq, microtasks_eq, Hres, Htask. cbn [fst snd app].
    unfold on_request. rewrite Hreq.
    rewrite (initialize_resume_set_requests _ _ Hi). cbn [fst snd app requests].
    rewrite (join_imap_single _ _ id);
      change (requests (set_requests ?rs w)) with rs.
    + rewrite list_lookup_insert_eq by by eapply lookup_lt_Some. by rewrite Hf.
    + intros k x Hk Hne. rewrite list_lookup_insert_ne in Hk by done.
      rewrite resume_quiet; [done|].
      by eapply (proj1 (Forall_lookup _ _) Hq).
  - destruct (step_request t w id req Hreq) as [Hl _].
    by rewrite resume_step, Hres in Hl.
Qed.

Lemma resume_answer w id req :
  safeShowAdPromise req = Pending ->
  result req = Pending ->
  (resume w id req).2
  = match result (resume w id req).1 with
    | Pending => []
    | Fulfilled r =>
        match pluginContext w with Some ctx => resume_game ctx | None => [] end
        ++ [AdSettled id (Fulfilled r)]
    | Rejected e => [AdSettled id (Rejected e)]
    end.
Proof.
  destruct req as [op sdk sa ta tp ra sf re]. simpl. intros -> ->.
  unfold resume. simpl.
  destruct (settle ra _) as [|[r|]|e]; simpl; try done;
    by destruct (pluginContext w).
Qed.

Lemma quiet_unanswered req :
  quiet req = true -> result req = Pending -> outstanding req = true.
Proof.
  destruct req as [op sdk sa ta tp ra sf re]. unfold quiet, outstanding. simpl.
  intros Hq ->. by destruct sdk, sa, tp, ra, sf.
Qed.

(** X8. On a reachable page with a stored context, let the SDK settle the
    promise of an unanswered request, or let its timer fire. If that fulfils
    the request (with an outcome derived from the flags, with
    [time-constraint] or with [unknown]), the step consists of
    [setNeedsMute(false)], [setNeedsPause(false)] and the answer to the host,
    in this order; if it rejects the request, the step consists of the
    rejection alone and the host context is not called; if the request stays
    unanswered, the step has no effect. *)
Theorem the_answering_step g d h o f ts t id req ctx :
  let w := (run (gameDistributionPlugin g d h o f) ts).1 in
  pluginContext w = Some ctx ->
  requests w !! id = Some req ->
  result req = Pending ->
  target t w = Some id ->
  exists req', requests (step w t).1 !! id = Some req' /\
    (step w t).2
    = match result req' with
      | Pending => []
      | Fulfilled r => resume_game ctx ++ [AdSettled id (Fulfilled r)]
      | Rejected e => [AdSettled id (Rejected e)]
      end.
Proof.
  intros w Hctx Hreq Hre Ht.
  destruct (run_reaches g d h o f ts) as (Hs & _). fold w in Hs.
  destruct (stable_step_on_request t w id req Hs Hreq Ht) as [He Hl].
  eexists. split; [exact Hl|]. rewrite He.
  assert (outstanding req = true) as Ho.
  { apply quiet_unanswered; [|done].
    by eapply (proj1 (Forall_lookup _ _) (proj2 Hs)). }
  destruct (task_request_waiting t w id req) as (Hsf & Hr & _).
  rewrite resume_answer, Hctx; [done|..].
  - rewrite Hsf. rewrite (outstanding_inv req Ho). done.
  - by rewrite Hr.
Qed.

Lemma the_answering_step_witness :
  let w := (run (gameDistributionPlugin "game" (Some false) "example.com" None
                   false)
              [CallInitialize 7; ImportSettled None; deliver "SDK_READY";
               CallShowFullScreenAd SdkReturnsPromise;
               deliver "SDK_GAME_PAUSE"]).1 in
  (step w (SdkPromiseSettled 0 None)).2
  = resume_game 7 ++ [AdSettled 0 (Fulfilled (shown false))] /\
  (step w (SdkPromiseSettled 0 (Some (newError "no ad")))).2
  = [AdSettled 0 (Rejected (newError "no ad"))].
Proof.
  intros w.
  assert (pluginContext w = Some 7) as Hctx by (vm_compute; reflexivity).
  assert (requests w !! 0 = Some (newRequest ShowFullScreenAd SdkReturnsPromise))
    as Hreq by (vm_compute; reflexivity).
  split.
  - destruct (the_answering_step "game" (Some false) "example.com" None false
                [CallInitialize 7; ImportSettled None; deliver "SDK_READY";
                 CallShowFullScreenAd SdkReturnsPromise; deliver "SDK_GAME_PAUSE"]
                (SdkPromiseSettled 0 None) 0 _ 7 Hctx Hreq eq_refl eq_refl)
      as (req' & Hl & He).
    assert (requests (step w (SdkPromiseSettled 0 None)).1 !! 0
            = Some {| operation := ShowFullScreenAd; sdkCall := Fulfilled tt;
                      showAdPromise := Fulfilled None; timerArmed := true;
                      timeoutPromise := Pending; raced := Fulfilled None;
                      safeShowAdPromise := Fulfilled None;
                      result := Fulfilled (shown false) |}) as Hv
        by (vm_compute; reflexivity).
    unfold w in Hv. rewrite Hv in Hl. injection Hl as <-. exact He.
  - destruct (the_answering_step "game" (Some false) "example.com" None false
                [CallInitialize 7; ImportSettled None; deliver "SDK_READY";
                 CallShowFullScreenAd SdkReturnsPromise; deliver "SDK_GAME_PAUSE"]
                (SdkPromiseSettled 0 (Some (newError "no ad"))) 0 _ 7
                Hctx Hreq eq_refl eq_refl)
      as (req' & Hl & He).
    assert (requests (step w (SdkPromiseSettled 0 (Some (newError "no ad")))).1
              !! 0
            = Some {| operation := ShowFullScreenAd;
                      sdkCall := Rejected (newError "no ad");
                      showAdPromise := Rejected (newError "no ad");
                      timerArmed := true;
                      timeoutPromise := Pending;
                      raced := Rejected (newError "no ad");
                      safeShowAdPromise := Rejected (newError "no ad");
                      result := Rejected (newError "no ad") |}) as Hv
        by (vm_compute; reflexivity).
    unfold w in Hv. rewrite Hv in Hl. injection Hl as <-. exact He.
Defined.

(** *** The outcome of a request *)

(** X9. Let [initialize(ctx)] have passed its guard, so that the plugin's own
    handler is the registered one, and let IMPRESSION be delivered to it. If
    no further ad is requested afterwards and a full-screen request is still
    outstanding when the SDK fulfils its promise, the request is fulfilled
    with [{didShowAd: true, errorReason: null}]. *)
Theorem fullscreen_outcome_keyed_on_impression w ctx mid id req :
  registered ctx w ->
  forallb (fun t => negb (startsAd t)) mid = true ->
  let before := (run w (SdkEvent {| name := "IMPRESSION" |} :: mid)).1 in
  requests before !! id = Some req ->
  operation req = ShowFullScreenAd ->
  outstanding req = true ->
  answers (step before (SdkPromiseSettled id None)) id (Fulfilled (shown true)).
Proof.
  intros Hopt Hmid before Hreq Hop Ho.
  assert (didShowAd before = true) as Hd.
  { subst before. rewrite run_cons. cbn [fst].
    refine (proj1 (run_invariant (fun w => didShowAd w = true)
                     (fun _ => True) _ _ mid _ _ Hmid)).
    - intros w0 t Hw0 Ht. split; [|by apply Forall_true].
      rewrite step_didShowAd.
      apply task_didShowAd_true; [by apply negb_true_iff|done].
    - rewrite step_didShowAd. by apply (task_IMPRESSION ctx). }
  pose proof (fulfilment_answers before id req Hreq Ho) as Ha.
  rewrite Hop in Ha. simpl in Ha. by rewrite Hd in Ha.
Qed.

Lemma fullscreen_outcome_keyed_on_impression_witness :
  registered 7 (showingPage ShowFullScreenAd) /\
  answers
    (step (run (showingPage ShowFullScreenAd)
             [SdkEvent {| name := "IMPRESSION" |}; TimerFired 0]).1
       (SdkPromiseSettled 0 None))
    0 (Fulfilled (shown true)).
Proof.
  assert (registered 7 (showingPage ShowFullScreenAd)) as Hreg.
  { split; [vm_compute; reflexivity|]. exists "game". vm_compute; reflexivity. }
  split; [exact Hreg|].
  apply (fullscreen_outcome_keyed_on_impression (showingPage ShowFullScreenAd)
           7 [TimerFired 0] 0
           {| operation := ShowFullScreenAd; sdkCall := Pending;
              showAdPromise := Pending; timerArmed := false;
              timeoutPromise := Pending; raced := Pending;
              safeShowAdPromise := Pending; result := Pending |}).
  - exact Hreg.
  - vm_compute; reflexivity.
  - vm_compute; reflexivity.
  - reflexivity.
  - reflexivity.
Defined.

Lemma run_operation ts w id req :
  requests w !! id = Some req ->
  exists req', requests (run w ts).1 !! id = Some req' /\
               operation req' = operation req.
Proof.
  revert w req. induction ts as [|t ts IH]; intros w req Hreq; [eauto|].
  rewrite run_cons. cbn [fst].
  destruct (step_request t w id req Hreq) as [Hl _].
  destruct (IH _ _ Hl) as (req' & Hl' & Hop). exists req'. split; [done|].
  rewrite Hop. unfold resume. cbn [fst operation].
  by destruct (task_request_waiting t w id req) as (_ & _ & ->).
Qed.

(** X10. Every request starts from a cleared flag: if, from the call of
    [showFullScreenAd()] on, no IMPRESSION is delivered (for
    [showRewardedAd()]: no SDK_REWARDED_WATCH_COMPLETE), and the request is
    still outstanding when the SDK fulfils its promise, the request is
    fulfilled with [{didShowAd: false, errorReason: null}], whatever the flags
    were before the call. For a rewarded ad an IMPRESSION makes no
    difference. *)
Theorem outcome_false_without_the_event w op mid req :
  let id := length (requests w) in
  forallb (fun t => negb (isEvent (flagEvent op) t)) mid = true ->
  let before := (run w (call op SdkReturnsPromise :: mid)).1 in
  requests before !! id = Some req ->
  outstanding req = true ->
  answers (step before (SdkPromiseSettled id None)) id (Fulfilled (shown false)).
Proof.
  intros id Hmid before Hreq Ho.
  assert (derivedFlag op before = false) as Hflag.
  { subst before. rewrite run_cons. cbn [fst].
    refine (proj1 (run_invariant (fun w => derivedFlag op w = false)
                     (fun _ => True) _ _ mid _ _ Hmid)).
    - intros w0 t Hw0 Ht. split; [|by apply Forall_true].
      apply step_derivedFlag_false; [by apply negb_true_iff|done].
    - rewrite step_derivedFlag_task. by destruct op. }
  assert (operation req = op) as Hop.
  { destruct (step_start op SdkReturnsPromise w) as [Hl _].
    destruct (run_operation mid _ _ _ Hl) as (req' & Hl' & Hop).
    subst before. rewrite run_cons in Hreq. cbn [fst] in Hreq.
    fold id in Hl'. rewrite Hl' in Hreq. injection Hreq as <-.
    rewrite Hop. unfold resume. done. }
  pose proof (fulfilment_answers before id req Hreq Ho) as Ha.
  by rewrite Hop, Hflag in Ha.
Qed.

Lemma outcome_false_without_the_event_witness :
  let stale := (run readyPage
                  [deliver "IMPRESSION"; deliver "SDK_REWARDED_WATCH_COMPLETE"]).1 in
  didShowAd stale = true /\ rewardReceived stale = true /\
  answers
    (step (run stale [call ShowRewardedAd SdkReturnsPromise;
                      deliver "IMPRESSION"; TimerFired 0]).1
       (SdkPromiseSettled 0 None))
    0 (Fulfilled (shown false)).
Proof.
  intros stale. split; [vm_compute; reflexivity|].
  split; [vm_compute; reflexivity|].
  assert (length (requests stale) = 0) as Hlen by (vm_compute; reflexivity).
  pose proof (outcome_false_without_the_event stale ShowRewardedAd
                [deliver "IMPRESSION"; TimerFired 0]
                {| operation := ShowRewardedAd; sdkCall := Pending;
                   showAdPromise := Pending; timerArmed := false;
                   timeoutPromise := Pending; raced := Pending;
                   safeShowAdPromise := Pending; result := Pending |}) as H.
  cbv zeta in H. rewrite Hlen in H. apply H.
  - vm_compute; reflexivity.
  - vm_compute; reflexivity.
  - reflexivity.
Defined.

(** X11. If [window.gdsdk.showAd] returns a value that is no promise, the
    request is answered in the step of the call, with [{didShowAd: false,
    errorReason: null}], and a game with a stored context is left neither
    paused nor muted. *)
Theorem a_plain_return_answers_at_once w op ctx history :
  pluginContext w = Some ctx ->
  let out := step w (call op SdkReturnsValue) in
  answers out (length (requests w)) (Fulfilled (shown false)) /\
  needsPause ctx (history ++ out.2) = false /\
  needsMute ctx (history ++ out.2) = false.
Proof.
  intros Hctx out.
  destruct (step_start op SdkReturnsValue w) as [Hl He]. fold out in Hl, He.
  assert (pluginContext out.1 = Some ctx) as Hctx'.
  { subst out. rewrite step_eq. cbn [fst].
    destruct (microtasks_vars (task (call op SdkReturnsValue) w).1) as (-> & _).
    by destruct op. }
  assert (derivedFlag op out.1 = false) as Hflag.
  { subst out. rewrite step_derivedFlag_task. by destruct op. }
  revert Hl He. unfold resume, operation_resume. simpl.
  change (Fulfilled {| AdLad.didShowAd := ?b; AdLad.errorReason := None |})
    with (Fulfilled (shown b)).
  fold (derivedFlag op out.1). rewrite Hflag, Hctx'. simpl. intros Hl He.
  assert (isEvent "SDK_GAME_PAUSE" (call op SdkReturnsValue) = false) as Hnp
      by (by destruct op).
  destruct (step_never_pauses _ w ctx Hnp) as [Hp Hm]. fold out in Hp, Hm.
  split; [split; [eauto|]|split].
  - apply He. rewrite !elem_of_cons. auto.
  - apply needsPause_reset; [|done]. apply He. rewrite !elem_of_cons. auto.
  - apply needsMute_reset; [|done]. apply He. rewrite !elem_of_cons. auto.
Qed.

Lemma a_plain_return_answers_at_once_witness :
  let w := (step readyPage (deliver "SDK_GAME_PAUSE")).1 in
  let out := step w (call ShowRewardedAd SdkReturnsValue) in
  answers out 0 (Fulfilled (shown false)) /\
  needsPause 7 ([CtxSetNeedsPause 7 true] ++ out.2) = false /\
  needsMute 7 ([CtxSetNeedsPause 7 true] ++ out.2) = false.
Proof.
  intros w.
  assert (pluginContext w = Some 7) as Hctx by (vm_compute; reflexivity).
  assert (length (requests w) = 0) as Hlen by (vm_compute; reflexivity).
  pose proof (a_plain_return_answers_at_once w ShowRewardedAd 7
                [CtxSetNeedsPause 7 true] Hctx) as H.
  cbv zeta in H. rewrite Hlen in H. exact H.
Defined.

(** X12. The timer of an outstanding request, full-screen or rewarded: if no
    impression is recorded when it fires, the request is fulfilled with
    [{didShowAd: false, errorReason: "unknown"}]; if one is recorded, the
    request stays outstanding, its timer is spent, and the host is told
    nothing. *)
Theorem the_timer_answers_unless_impression w id req :
  requests w !! id = Some req ->
  outstanding req = true ->
  timerArmed req = true ->
  let out := step w (TimerFired id) in
  (didShowAd w = false -> answers out id (Fulfilled unknown)) /\
  (didShowAd w = true ->
   (exists req', requests out.1 !! id = Some req' /\ outstanding req' = true /\
                 timerArmed req' = false) /\
   forall p, AdSettled id p ∉ out.2).
Proof.
  intros Hreq Ho Ha out. split; intros Hd.
  - destruct (step_request (TimerFired id) w id req Hreq) as [Hl He].
    fold out in Hl, He. revert Hl He. simpl. rewrite decide_True by done.
    rewrite Ha, (outstanding_inv req Ho).
    unfold timeout, resume. simpl. rewrite Hd. simpl. intros Hl He.
    split; [eauto|]. apply He. apply elem_of_app. right.
    by apply list_elem_of_singleton.
  - assert (task_request (TimerFired id) w id req
            = {| operation := operation req; sdkCall := Pending;
                 showAdPromise := Pending; timerArmed := false;
                 timeoutPromise := Pending; raced := Pending;
                 safeShowAdPromise := Pending; result := Pending |}) as Htr.
    { simpl. rewrite decide_True by done. rewrite Ha, (outstanding_inv req Ho).
      unfold timeout. simpl. by rewrite Hd. }
    destruct (step_outstanding (TimerFired id) w id req Hreq) as [Hl HQ];
      [by rewrite Htr|].
    fold out in Hl, HQ. split.
    + eexists. split; [exact Hl|]. by rewrite Htr.
    + intros p Hin. eapply Forall_forall in HQ; [|exact Hin]. by apply (HQ p).
Qed.

Lemma the_timer_answers_unless_impression_witness :
  answers (step (showingPage ShowFullScreenAd) (TimerFired 0)) 0
    (Fulfilled unknown) /\
  forall p,
    AdSettled 0 p
    ∉ (step (step (showingPage ShowFullScreenAd) (deliver "IMPRESSION")).1
         (TimerFired 0)).2.
Proof.
  split.
  - refine (proj1 (the_timer_answers_unless_impression
                     (showingPage ShowFullScreenAd) 0
                     (newRequest ShowFullScreenAd SdkReturnsPromise) _ _ _) _);
      vm_compute; reflexivity.
  - refine (proj2 (proj2 (the_timer_answers_unless_impression
                     (step (showingPage ShowFullScreenAd)
                        (deliver "IMPRESSION")).1 0
                     (newRequest ShowFullScreenAd SdkReturnsPromise) _ _ _) _));
      vm_compute; reflexivity.
Defined.

(** *** [initialize]: a failed import, and the console *)

Lemma step_threw w t :
  handshake w ->
  initializeFrame w = InitializeThrew ->
  initializeFrame (step w t).1 = InitializeThrew /\
  resolveInitialize (step w t).1 = None.
Proof.
  unfold handshake.
  destruct (step_initialize_vars w t) as (-> & -> & _).
  destruct w as [go ? ? ? ri ? ? pc fr rs]. unfold pluginHandler. simpl.
  intros H ->.
  destruct H as [-> Hh]. destruct pc as [c|], go as [opts|]; try (by destruct Hh).
  destruct t as [ctx|[e|]|ev|sdk|sdk|id sdk|r e|r];
    unfold initialize_resume, task, pluginHandler, initialize,
      initialize_imported,
      showFullScreenAd, showRewardedAd, showBannerAd, safeShowAd, on_request,
      onEvent;
    simpl;
    repeat match goal with
           | |- context [String.eqb (name ev) ?s] =>
               destruct (String.eqb (name ev) s)
           end;
    try destruct (rs !! r); simpl; done.
Qed.

(** X13. If the import of the SDK's script fails, [initialize] rejects with
    the error of the import, having registered the handler and stored the
    context. From then on the promise of [initialize] is never fulfilled,
    and every SDK_READY that is delivered makes the handler throw. *)
Theorem a_failed_import_is_final g d h f ctx e ts :
  let page := gameDistributionPlugin g d h None f in
  let failed := run page [CallInitialize ctx; ImportSettled (Some e)] in
  let w := (run failed.1 ts).1 in
  failed.2 = [ImportScript sdkUrl; InitializeSettled (Rejected e)] /\
  registered ctx failed.1 /\
  resolutions (run failed.1 ts).2 = 0 /\
  step w (deliver "SDK_READY")
  = (w, [Threw (typeError "resolveInitialize is not a function")]).
Proof.
  intros page failed w.
  assert (failed = (set_initializeFrame InitializeThrew
                      (set_GD_OPTIONS
                         (Some {| gameId := g; onEvent_ctx := ctx |})
                         (set_pluginContext (Some ctx) page)),
                    [ImportScript sdkUrl; InitializeSettled (Rejected e)]))
    as Hfailed by reflexivity.
  assert (handshake failed.1) as Hh by (rewrite Hfailed; split; [done|by eexists]).
  assert (stable failed.1) as Hs by (rewrite Hfailed; by split).
  split; [by rewrite Hfailed|]. split.
  { rewrite Hfailed. split; [done|]. by exists g. }
  split.
  { destruct (run_handshake ts failed.1 Hh) as [_ Hle].
    rewrite Hfailed in Hle. unfold toResolve at 2 in Hle. simpl in Hle.
    rewrite Hfailed. simpl. lia. }
  assert (handshake w /\ initializeFrame w = InitializeThrew /\
          resolveInitialize w = None) as (Hhw & Hfw & Hrw).
  { subst w. clear Hs. assert (initializeFrame failed.1 = InitializeThrew) as Hf
        by (by rewrite Hfailed).
    assert (resolveInitialize failed.1 = None) as Hr by (by rewrite Hfailed).
    revert Hh Hf Hr. generalize failed.1. clear.
    induction ts as [|t ts IH]; intros w Hh Hf Hr; [done|].
    rewrite run_cons. cbn [fst].
    destruct (step_threw w t Hh Hf) as [Hf' Hr'].
    apply IH; [by apply step_handshake|done..]. }
  assert (stable w) as Hsw by (by apply run_stable).
  assert (task (deliver "SDK_READY") w
          = (w, [Threw (typeError "resolveInitialize is not a function")]))
    as Ht.
  { unfold handshake in Hhw. rewrite Hfw in Hhw. destruct Hhw as [_ [opts Ho]].
    simpl. rewrite Ho. unfold onEvent. simpl. by rewrite Hrw. }
  rewrite stable_step; rewrite Ht; done.
Qed.

Lemma consoleOpenings_app l1 l2 :
  consoleOpenings (l1 ++ l2) = consoleOpenings l1 + consoleOpenings l2.
Proof. unfold consoleOpenings. by rewrite List.filter_app, length_app. Qed.

Lemma consoleOpenings_none l :
  GdsdkOpenConsole ∉ l -> consoleOpenings l = 0.
Proof.
  unfold consoleOpenings. induction l as [|e l IH]; intros Hl; [done|].
  apply not_elem_of_cons in Hl as [Hne Hl]. simpl.
  destruct e; try done; by apply IH.
Qed.

Lemma step_consoleOpenings w t :
  consoleOpenings (step w t).2
  = consoleOpenings (initialize_resume (task t w).1).2.
Proof.
  rewrite step_eq, microtasks_eq. cbn [fst snd].
  rewrite !consoleOpenings_app.
  rewrite (consoleOpenings_none (task t w).2),
          (consoleOpenings_none (mjoin _)); [lia| |].
  - intros (l & Hl & Hin)%list_elem_of_join.
    apply elem_of_lookup_imap_1 in Hin as (k & req & -> & Hk).
    apply resume_effects in Hl as [(c & _ & [?|?])|(p' & ? & _)]; done.
  - intros He. destruct t; simpl in He.
    + unfold initialize in He. destruct (GD_OPTIONS w); cbn [snd] in He;
        apply list_elem_of_singleton in He; done.
    + unfold initialize_imported in He.
      destruct (initializeFrame w), error; cbn [snd] in He;
        rewrite ?list_elem_of_singleton, ?elem_of_nil in He; done.
    + destruct (pluginHandler w) as [c|]; [|by apply elem_of_nil in He].
      unfold onEvent in He.
      repeat case_match; simplify_eq; cbn [snd] in He;
        rewrite ?elem_of_cons, ?elem_of_nil in He; intuition discriminate.
    + rewrite !elem_of_cons, elem_of_nil in He. intuition discriminate.
    + rewrite !elem_of_cons, elem_of_nil in He. intuition discriminate.
    + destruct sdk; rewrite ?elem_of_cons, ?elem_of_nil in He; intuition discriminate.
    + by apply elem_of_nil in He.
    + by apply elem_of_nil in He.
Qed.

Lemma task_debug t w :
  debug (task t w).1 = debug w /\ gd_debug_ex (task t w).1 = gd_debug_ex w.
Proof.
  destruct t; simpl; try done.
  - unfold initialize. by destruct (GD_OPTIONS w).
  - unfold initialize_imported. by destruct (initializeFrame w), error.
  - destruct (pluginHandler w) as [c|]; [|done]. unfold onEvent.
    repeat case_match; simplify_eq; done.
  - unfold on_request. by destruct (requests w !! request).
  - unfold on_request. by destruct (requests w !! request).
Qed.

Lemma step_debug t w :
  debug (step w t).1 = debug w /\ gd_debug_ex (step w t).1 = gd_debug_ex w.
Proof.
  rewrite step_eq, microtasks_eq. cbn [fst].
  destruct (task_debug t w) as [<- <-]. generalize (task t w).1. intros w1.
  destruct w1 as [? ? ? ? ri ? ? ? fr ?]. unfold initialize_resume. simpl.
  destruct fr; try done. by destruct ri as [[]|].
Qed.

Lemma initialize_resume_console w :
  consoleOpenings (initialize_resume w).2
  = if debug w && negb (gd_debug_ex w)
    then resolutions (initialize_resume w).2 else 0.
Proof.
  destruct w as [? flag ? dbg ri ? ? ? fr ?]. unfold initialize_resume. simpl.
  destruct fr, ri as [[]|], (dbg && negb flag); reflexivity.
Qed.

Lemma run_consoleOpenings ts w :
  consoleOpenings (run w ts).2
  = if debug w && negb (gd_debug_ex w) then resolutions (run w ts).2 else 0.
Proof.
  revert w. induction ts as [|t ts IH]; intros w.
  - by destruct (debug w && _).
  - rewrite run_cons. cbn [fst snd].
    rewrite consoleOpenings_app, resolutions_app, IH.
    destruct (step_debug t w) as [-> ->].
    rewrite step_consoleOpenings, step_resolutions, initialize_resume_console.
    destruct (task_debug t w) as [-> ->].
    by destruct (debug w && negb (gd_debug_ex w)).
Qed.

(** X14. [window.gdsdk.openConsole()] is called when [initialize] is resumed
    by SDK_READY, and only if the plugin is in debug mode and
    [localStorage.gd_debug_ex] is not set: over any run from the creation of
    the plugin it is called as often as the promise of [initialize] is
    fulfilled in that case, hence at most once, and never otherwise. When it
    is called, it is called before the promise is fulfilled. *)
Theorem the_console_opens_at_most_once g d h o f ts ctx :
  let page := gameDistributionPlugin g d h o f in
  let fresh := gameDistributionPlugin g d h None f in
  consoleOpenings (run page ts).2
  = (if debug page && negb f then resolutions (run page ts).2 else 0) /\
  consoleOpenings (run page ts).2 <= 1 /\
  (run fresh [CallInitialize ctx; ImportSettled None; deliver "SDK_READY"]).2
  = ImportScript sdkUrl
    :: (if debug fresh && negb f then [GdsdkOpenConsole] else [])
    ++ [InitializeSettled (Fulfilled tt)].
Proof.
  intros page fresh.
  pose proof (run_consoleOpenings ts page) as Hc.
  change (gd_debug_ex page) with f in Hc.
  destruct (run_handshake ts page (plugin_handshake g d h o f)) as [_ Hle].
  unfold toResolve at 2 in Hle. simpl in Hle.
  split; [done|]. split.
  - rewrite Hc. destruct (debug page && negb f); lia.
  - subst fresh. simpl. by destruct (_ && negb f).
Qed.

(** *** Requests side by side *)

(** X15. A task for one request leaves every other request as it is: on a
    reachable page, when the SDK settles the promise of a request, when the
    timer of a request fires, or when a new request is made, the promises of
    the other requests do not change. *)
Theorem other_requests_are_untouched g d h o f ts t id k req :
  let w := (run (gameDistributionPlugin g d h o f) ts).1 in
  target t w = Some id ->
  k <> id ->
  requests w !! k = Some req ->
  requests (step w t).1 !! k = Some req.
Proof.
  intros w Ht Hk Hreq.
  destruct (run_reaches g d h o f ts) as ([_ Hq] & _). fold w in Hq.
  destruct (step_request t w k req Hreq) as [Hl _]. rewrite Hl. f_equal.
  assert (task_request t w k req = req) as ->.
  { destruct t; simpl in *; try done; injection Ht as <-; by rewrite decide_False. }
  rewrite resume_quiet; [done|]. by eapply (proj1 (Forall_lookup _ _) Hq).
Qed.

Lemma other_requests_are_untouched_witness :
  let w := (run (gameDistributionPlugin "game" (Some false) "example.com" None
                   false)
              [CallInitialize 7; ImportSettled None; deliver "SDK_READY";
               CallShowFullScreenAd SdkReturnsPromise;
               CallShowRewardedAd SdkReturnsPromise]).1 in
  requests (step w (TimerFired 1)).1 !! 0
  = Some (newRequest ShowFullScreenAd SdkReturnsPromise).
Proof.
  intros w.
  refine (other_requests_are_untouched "game" (Some false) "example.com" None
            false _ (TimerFired 1) 1 0 _ eq_refl _ _).
  - discriminate.
  - vm_compute; reflexivity.
Defined.

(** X16. But the requests share the flags: if a further request is made
    while a full-screen request is outstanding, the impression recorded for
    the outstanding request is cleared, and unless IMPRESSION is delivered
    again the outstanding request is fulfilled with [{didShowAd: false,
    errorReason: null}] when the SDK fulfils its promise. *)
Theorem a_new_request_clears_the_impression w op sdk mid id req :
  forallb (fun t => negb (isEvent "IMPRESSION" t)) mid = true ->
  let before :=
    (run w (SdkEvent {| name := "IMPRESSION" |} :: call op sdk :: mid)).1 in
  requests before !! id = Some req ->
  operation req = ShowFullScreenAd ->
  outstanding req = true ->
  answers (step before (SdkPromiseSettled id None)) id (Fulfilled (shown false)).
Proof.
  intros Hmid before Hreq Hop Ho.
  assert (didShowAd before = false) as Hd.
  { subst before. rewrite !run_cons. cbn [fst].
    refine (proj1 (run_invariant (fun w => didShowAd w = false)
                     (fun _ => True) _ _ mid _ _ Hmid)).
    - intros w0 t Hw0 Ht. split; [|by apply Forall_true].
      rewrite step_didShowAd.
      apply task_didShowAd_false; [by apply negb_true_iff|done].
    - rewrite step_didShowAd. by destruct op. }
  pose proof (fulfilment_answers before id req Hreq Ho) as Ha.
  rewrite Hop in Ha. simpl in Ha. by rewrite Hd in Ha.
Qed.

Lemma a_new_request_clears_the_impression_witness :
  didShowAd (step (showingPage ShowFullScreenAd) (deliver "IMPRESSION")).1
  = true /\
  answers
    (step (run (showingPage ShowFullScreenAd)
             [SdkEvent {| name := "IMPRESSION" |};
              call ShowRewardedAd SdkReturnsPromise]).1
       (SdkPromiseSettled 0 None))
    0 (Fulfilled (shown false)).
Proof.
  split; [vm_compute; reflexivity|].
  apply (a_new_request_clears_the_impression (showingPage ShowFullScreenAd)
           ShowRewardedAd SdkReturnsPromise [] 0
           (newRequest ShowFullScreenAd SdkReturnsPromise)).
  - reflexivity.
  - vm_compute; reflexivity.
  - reflexivity.
  - reflexivity.
Defined.

(** *** The calls on the SDK *)

Lemma sdkCalls_app l1 l2 : sdkCalls (l1 ++ l2) = sdkCalls l1 + sdkCalls l2.
Proof. unfold sdkCalls. by rewrite List.filter_app, length_app. Qed.

Lemma timersSet_app l1 l2 : timersSet (l1 ++ l2) = timersSet l1 + timersSet l2.
Proof. unfold timersSet. by rewrite List.filter_app, length_app. Qed.

Lemma microtasks_call_nothing w :
  sdkCalls (microtasks w).2 = 0 /\ timersSet (microtasks w).2 = 0.
Proof.
  assert (forall e, e ∈ (microtasks w).2 ->
                    match e with
                    | GdsdkShowAd _ _ | SetTimeout _ _ => False
                    | _ => True
                    end) as Hall.
  { intros e. rewrite microtasks_eq. cbn [snd].
    rewrite elem_of_app, list_elem_of_join. intros [He|(l & Hl & Hin)].
    - apply initialize_resume_effects in He as [->|[? ->]]; done.
    - apply elem_of_lookup_imap_1 in Hin as (k & req & -> & Hk).
      apply resume_effects in Hl as [(c & _ & [->| ->])|(p' & -> & _)]; done. }
  revert Hall. generalize (microtasks w).2. intros l.
  unfold sdkCalls, timersSet. induction l as [|e l IH]; intros Hall; [done|].
  destruct IH as [IH1 IH2]; [intros e' He'; apply Hall; by right|].
  pose proof (Hall e ltac:(by left)) as He. simpl.
  destruct e; try done.
Qed.

Lemma step_calls w t :
  sdkCalls (step w t).2
  = (match t with
     | CallShowFullScreenAd _ | CallShowRewardedAd _ | CallShowBannerAd _ _ => 1
     | _ => 0
     end) /\
  timersSet (step w t).2 = if startsAd t then 1 else 0.
Proof.
  rewrite step_eq. cbn [snd]. rewrite sdkCalls_app, timersSet_app.
  destruct (microtasks_call_nothing (task t w).1) as [-> ->].
  rewrite !Nat.add_0_r.
  destruct t; simpl; try done.
  - unfold initialize. by destruct (GD_OPTIONS w).
  - unfold initialize_imported. by destruct (initializeFrame w), error.
  - destruct (pluginHandler w) as [c|]; [|done]. unfold onEvent.
    repeat case_match; simplify_eq; done.
  - by destruct sdk.
Qed.

(** X17. The plugin calls [window.gdsdk.showAd] once for every call of
    [showFullScreenAd], [showRewardedAd] or [showBannerAd] by the host and at
    no other time (it never retries), and it sets one timer for every call of
    [showFullScreenAd] or [showRewardedAd] and none otherwise. *)
Theorem one_sdk_call_per_host_call w ts :
  sdkCalls (run w ts).2 = adCalls ts /\
  timersSet (run w ts).2 = length (List.filter startsAd ts).
Proof.
  revert w. induction ts as [|t ts IH]; intros w; [done|].
  rewrite run_cons. cbn [fst snd]. rewrite sdkCalls_app, timersSet_app.
  destruct (step_calls w t) as [-> ->]. destruct (IH (step w t).1) as [-> ->].
  unfold adCalls. simpl. split; by destruct t.
Qed.

(** *** The promise of [initialize] *)

(** X18. From the creation of the plugin on: as long as no SDK_READY event has
    been delivered, the promise returned by [initialize] has not been
    fulfilled; whatever the tasks, it is fulfilled at most once; once the
    script has been imported and [initialize] is suspended on its promise, it
    is fulfilled exactly once by any sequence of tasks that delivers
    SDK_READY at least once, and not at all by a sequence that does not; and
    after [initialize] has returned, the delivery of SDK_READY changes
    nothing and has no effect. An SDK_READY that was delivered before, while
    the script was being imported, does not count. *)
Theorem ready_after_import_resolves_once g d h o f ts ts' :
  let page := gameDistributionPlugin g d h o f in
  let w := (run page ts).1 in
  (forallb (fun t => negb (isEvent "SDK_READY" t)) ts = true ->
   resolutions (run page ts).2 = 0) /\
  resolutions (run page ts).2 <= 1 /\
  (initializeFrame w = AwaitingReady ->
   resolutions (run w ts').2
   = if existsb (isEvent "SDK_READY") ts' then 1 else 0) /\
  (initializeFrame w = InitializeReturned ->
   step w (deliver "SDK_READY") = (w, []) /\ resolutions (run w ts').2 = 0).
Proof.
  intros page w.
  pose proof (plugin_handshake g d h o f) as Hp. fold page in Hp.
  destruct (run_handshake ts page Hp) as [Hw Hle]. fold w in Hw, Hle.
  split; [by apply run_without_ready|].
  split; [unfold toResolve at 2 in Hle; simpl in Hle; lia|].
  split; [by apply run_awaiting_ready|].
  intros Hfr. split.
  - assert (stable w) as Hs by apply run_stable, plugin_stable.
    assert (task (deliver "SDK_READY") w = (w, [])) as Ht.
    { unfold handshake in Hw. rewrite Hfr in Hw. destruct Hw as [Hri [opts Ho]].
      simpl. rewrite Ho. unfold onEvent. simpl. rewrite Hri. simpl.
      f_equal. destruct w. simpl in *. by subst. }
    rewrite stable_step; rewrite Ht; done.
  - destruct (run_handshake ts' w Hw) as [_ Hle'].
    unfold toResolve at 2 in Hle'. rewrite Hfr in Hle'. lia.
Qed.

(** X18 for a plugin that is initialized once and receives SDK_READY twice
    after the import. *)
Lemma ready_after_import_resolves_once_witness :
  let loaded := [CallInitialize 7; ImportSettled None] in
  let ready := loaded ++ [deliver "SDK_READY"] in
  resolutions (run examplePage loaded).2 = 0 /\
  initializeFrame (run examplePage loaded).1 = AwaitingReady /\
  resolutions
    (run (run examplePage loaded).1
       [deliver "SDK_READY"; deliver "SDK_READY"]).2 = 1 /\
  step (run examplePage ready).1 (deliver "SDK_READY")
  = ((run examplePage ready).1, []).
Proof.
  intros loaded ready.
  destruct (ready_after_import_resolves_once "game" (Some false)
              "example.com" None false loaded
              [deliver "SDK_READY"; deliver "SDK_READY"])
    as (Hnone & _ & Honce & _).
  destruct (ready_after_import_resolves_once "game" (Some false)
              "example.com" None false ready [])
    as (_ & _ & _ & Hnoop).
  assert (initializeFrame (run examplePage loaded).1 = AwaitingReady) as Hfr
      by (vm_compute; reflexivity).
  assert (initializeFrame (run examplePage ready).1 = InitializeReturned)
    as Hret by (vm_compute; reflexivity).
  split; [apply Hnone; vm_compute; reflexivity|]. split; [exact Hfr|].
  split; [exact (Honce Hfr)|].
  exact (proj1 (Hnoop Hret)).
Defined.

(** *** A page that has its own [window.GD_OPTIONS] *)

Lemma task_foreign opts t w :
  GD_OPTIONS w = Some opts -> pluginContext w = None ->
  initializeFrame w = NotCalled -> resolveInitialize w = None ->
  didShowAd w = false -> rewardReceived w = false ->
  let w' := (task t w).1 in
  GD_OPTIONS w' = Some opts /\ pluginContext w' = None /\
  initializeFrame w' = NotCalled /\ resolveInitialize w' = None /\
  didShowAd w' = false /\ rewardReceived w' = false.
Proof.
  intros Ho Hc Hf Hr Hd Hw.
  assert (pluginHandler w = None) as Hh by (unfold pluginHandler; by rewrite Hc).
  destruct t; simpl.
  - unfold initialize. by rewrite Ho.
  - unfold initialize_imported. by rewrite Hf.
  - by rewrite Hh.
  - done.
  - done.
  - done.
  - destruct (on_request_vars request (sdkSettles error) w)
      as (-> & -> & -> & -> & -> & ->). done.
  - match goal with |- context [on_request ?i ?f w] =>
      destruct (on_request_vars i f w) as (-> & -> & -> & -> & -> & ->) end.
    done.
Qed.

Lemma step_foreign opts t w :
  GD_OPTIONS w = Some opts -> pluginContext w = None ->
  initializeFrame w = NotCalled -> resolveInitialize w = None ->
  didShowAd w = false -> rewardReceived w = false ->
  let w' := (step w t).1 in
  GD_OPTIONS w' = Some opts /\ pluginContext w' = None /\
  initializeFrame w' = NotCalled /\ resolveInitialize w' = None /\
  didShowAd w' = false /\ rewardReceived w' = false.
Proof.
  intros Ho Hc Hf Hr Hd Hw.
  destruct (task_foreign opts t w Ho Hc Hf Hr Hd Hw)
    as (Ho1 & Hc1 & Hf1 & Hr1 & Hd1 & Hw1).
  cbv zeta. rewrite step_GD_OPTIONS, step_didShowAd, step_rewardReceived.
  destruct (step_initialize_vars w t) as (-> & -> & _ & ->).
  assert (initialize_resume (task t w).1 = ((task t w).1, [])) as ->
      by (unfold initialize_resume; by rewrite Hf1).
  done.
Qed.

(** X19. On a page whose [window.GD_OPTIONS] was set by somebody else before
    the plugin was made, the plugin stays out: whatever the tasks, every call
    of [initialize] is rejected with the error "GameDistribution plugin is
    being initialized more than once" and changes nothing, the value of
    [window.GD_OPTIONS] stays what it was, the plugin stores no context and
    registers no handler, so that no event of the SDK reaches it (the flags
    stay [false], the delivery of an event changes nothing and has no
    effect), and the promise of [initialize] is never fulfilled. *)
Theorem foreign_options_keep_the_plugin_out g d h opts f ts :
  let page := gameDistributionPlugin g d h (Some opts) f in
  let w := (run page ts).1 in
  GD_OPTIONS w = Some opts /\
  pluginContext w = None /\
  pluginHandler w = None /\
  didShowAd w = false /\
  rewardReceived w = false /\
  resolutions (run page ts).2 = 0 /\
  (forall ctx,
     step w (CallInitialize ctx)
     = (w, [InitializeSettled (Rejected duplicateInitialization)])) /\
  (forall ev, step w (SdkEvent ev) = (w, [])).
Proof.
  intros page w.
  assert (forall w0,
            GD_OPTIONS w0 = Some opts -> pluginContext w0 = None ->
            initializeFrame w0 = NotCalled -> resolveInitialize w0 = None ->
            didShowAd w0 = false -> rewardReceived w0 = false ->
            let w' := (run w0 ts).1 in
            GD_OPTIONS w' = Some opts /\ pluginContext w' = None /\
            initializeFrame w' = NotCalled /\ resolveInitialize w' = None /\
            didShowAd w' = false /\ rewardReceived w' = false) as Hrun.
  { induction ts as [|t ts IH]; intros w0 Ho Hc Hf Hr Hd Hw; [done|].
    cbv zeta. rewrite run_cons. cbn [fst].
    destruct (step_foreign opts t w0 Ho Hc Hf Hr Hd Hw)
      as (Ho1 & Hc1 & Hf1 & Hr1 & Hd1 & Hw1).
    by apply IH. }
  destruct (Hrun page) as (Ho & Hc & Hf & Hr & Hd & Hw); try done.
  fold w in Ho, Hc, Hf, Hr, Hd, Hw.
  assert (stable w) as Hs by apply run_stable, plugin_stable.
  assert (pluginHandler w = None) as Hh by (unfold pluginHandler; by rewrite Hc).
  split; [done|]. split; [done|]. split; [done|]. split; [done|].
  split; [done|]. split; [|split].
  - destruct (run_handshake ts page (plugin_handshake g d h (Some opts) f))
      as [_ Hle].
    fold w in Hle. unfold toResolve in Hle. rewrite Hf in Hle. simpl in Hle. lia.
  - intros ctx.
    assert (task (CallInitialize ctx) w
            = (w, [InitializeSettled (Rejected duplicateInitialization)])) as Ht.
    { simpl. unfold initialize. by rewrite Ho. }
    rewrite stable_step; rewrite Ht; done.
  - intros ev.
    assert (task (SdkEvent ev) w = (w, [])) as Ht by (simpl; by rewrite Hh).
    rewrite stable_step; rewrite Ht; done.
Qed.
